(** * The WebSocket session and relay handler of the agent container

    A shallow embedding of [websocketHandler] (server.ts): the two
    per-connection stores [sessionIds] and [tokenVerified], the handlers
    [onOpen], [onMessage] and [onClose], and the relay loop that turns the
    agent SDK's message stream into wire messages.

    [onMessage] is an [async] function.  It runs synchronously up to its
    first [await] and is afterwards resumed by the event loop, once for every
    awaited result: the outcome of [verifyToken], the next element of the
    agent stream, or the 5 ms pacing timer.  Between two resumptions other
    handler invocations may run.  The embedding keeps exactly these
    suspension points: an invocation is a [Task] that is started by
    [onMessage] and advanced by [resume]; the event loop is the labelled
    transition function [exec] over a pool of tasks.

    What the handlers do to the outside is recorded as a list of actions:
    [ws.send] is an action that always succeeds, whatever the state of the
    socket, and the calls to [verifyToken] and [query] are actions whose
    answers come back later as responses. *)

From Stdlib Require Import ZArith List String Ascii PrimFloat Lia.
From stdpp Require Import gmap strings list.

(** ** JavaScript strings

    A JavaScript string is a sequence of UTF-16 code units; [length] counts
    code units, while the string iterator used by [for (const char of text)]
    yields code points, gluing a high surrogate to the low surrogate that
    follows it. *)

Abbreviation jsstr := (list N).

Definition lit (s : string) : jsstr := N_of_ascii <$> list_ascii_of_string s.
Arguments lit s%_string : simpl never.

Definition is_high_surrogate (u : N) : bool := ((55296 <=? u) && (u <=? 56319))%N.
Definition is_low_surrogate (u : N) : bool := ((56320 <=? u) && (u <=? 57343))%N.

(** The values produced by the string iterator, in order. *)
Fixpoint js_chars (s : jsstr) : list jsstr :=
  match s with
  | [] => []
  | u :: rest =>
      if is_high_surrogate u then
        match rest with
        | v :: rest' =>
            if is_low_surrogate v then [u; v] :: js_chars rest'
            else [u] :: js_chars rest
        | [] => [[u]]
        end
      else [u] :: js_chars rest
  end.

(** A string used as a condition: only the empty string is falsy. *)
Definition nonempty (s : jsstr) : bool :=
  match s with [] => false | _ :: _ => true end.

(** ** Values returned by [JSON.parse] *)

#[warnings="-register-all"]
Inductive json :=
| JNull
| JBool (b : bool)
| JNum (x : float)
| JStr (s : jsstr)
| JArr (items : list json)
| JObj (props : list (jsstr * json)).

(** ToBoolean. *)
Definition truthy (v : json) : bool :=
  match v with
  | JNull => false
  | JBool b => b
  | JNum x => negb (PrimFloat.eqb x 0 || PrimFloat.is_nan x)
  | JStr s => nonempty s
  | JArr _ | JObj _ => true
  end.

(** Own properties of a parsed object, first binding of the key. *)
Fixpoint own_property (k : jsstr) (props : list (jsstr * json)) : option json :=
  match props with
  | [] => None
  | (k', v) :: rest => if bool_decide (k' = k) then Some v else own_property k rest
  end.

(** [v.k]: the outer [None] is the TypeError raised on [null]; the inner
    [None] is [undefined].  Booleans, numbers, strings and arrays have no
    property named [token] or [prompt]. *)
Definition member (v : json) (k : jsstr) : option (option json) :=
  match v with
  | JNull => None
  | JObj props => Some (own_property k props)
  | _ => Some None
  end.

(** [v?.k] *)
Definition opt_member (v : json) (k : jsstr) : option json :=
  match member v k with
  | Some r => r
  | None => None
  end.

(** [JSON.parse(String(event.data))]: an inbound frame is represented by
    what the parser makes of it. *)
Inductive parsed :=
| SyntaxError
| Value (data : json).

(** ** Messages of the agent SDK *)

Record ContentBlock := { block_type : jsstr; block_text : jsstr }.

(** The fields of an SDK message that the handler reads: [type],
    [subtype], [session_id] and [message?.content]. *)
Record SDKMessage := {
  msg_type : jsstr;
  msg_subtype : option jsstr;
  msg_session_id : option jsstr;
  msg_content : option (list ContentBlock)
}.

(** ** Wire messages sent to the client *)

Inductive WireMsg :=
| Ready
| TokenVerified (success : bool) (result : json)
| Text (chunk : jsstr)
| Done
| Error (message : jsstr).

(** ** Effects

    Connections are compared by reference; a connection is named by a
    number.  The effects of the handlers are the writes to the two stores,
    [ws.send], and the calls to the two external services. *)

Abbreviation conn := nat.

Inductive Action :=
| sessionIds_set (ws : conn) (id : jsstr)
| sessionIds_delete (ws : conn)
| tokenVerified_set (ws : conn) (b : bool)
| tokenVerified_delete (ws : conn)
| ws_send (ws : conn) (m : WireMsg)
| call_verifyToken (ws : conn) (token : json)
| call_query (ws : conn) (prompt : jsstr) (resume : option jsstr).

Record Server := {
  sessionIds : gmap nat (list N);
  tokenVerified : gmap nat bool
}.

Definition perform (s : Server) (a : Action) : Server :=
  match a with
  | sessionIds_set ws id =>
      {| sessionIds := <[ws := id]> (sessionIds s); tokenVerified := tokenVerified s |}
  | sessionIds_delete ws =>
      {| sessionIds := delete ws (sessionIds s); tokenVerified := tokenVerified s |}
  | tokenVerified_set ws b =>
      {| sessionIds := sessionIds s; tokenVerified := <[ws := b]> (tokenVerified s) |}
  | tokenVerified_delete ws =>
      {| sessionIds := sessionIds s; tokenVerified := delete ws (tokenVerified s) |}
  | ws_send _ _ | call_verifyToken _ _ | call_query _ _ _ => s
  end.

Definition perform_all (s : Server) (acts : list Action) : Server :=
  fold_left perform acts s.

(** [process.env], as far as the handler reads it. *)
Record Env := {
  ANTHROPIC_API_KEY : option jsstr;
  CLAUDE_CODE_OAUTH_TOKEN : option jsstr
}.

Definition env_set (v : option jsstr) : bool :=
  match v with
  | Some s => nonempty s
  | None => false
  end.

(** ** Handler invocations *)

Inductive Completion := Returned | Threw.

(** An invocation of [onMessage] between two turns of the event loop: it
    waits for [verifyToken], for the next element of the agent stream, or
    for the pacing timer inside the three nested loops (with the characters
    left in the current block and the blocks left in the current message),
    or it is over. *)
Inductive Task :=
| AwaitVerify (ws : conn)
| AwaitNext (ws : conn)
| AwaitPace (ws : conn) (chars : list jsstr) (blocks : list ContentBlock)
| Settled (c : Completion).

(** What the event loop hands back to a suspended invocation. *)
Inductive Response :=
| Resolved (result : json)
| Rejected
| Yield (m : SDKMessage)
| Exhausted
| Raised
| Tick.

(** [checkWSAuth] *)
Definition checkWSAuth : bool := true.

(** [onOpen].  [checkWSAuth] resolves at once, so the handler has finished
    before the event loop delivers anything else. *)
Definition onOpen (ws : conn) : list Action :=
  if checkWSAuth then
    [sessionIds_set ws (lit ""); tokenVerified_set ws false; ws_send ws Ready]
  else [].

(** [onClose] *)
Definition onClose (ws : conn) : list Action :=
  [sessionIds_delete ws; tokenVerified_delete ws].

(** [if (currentSessionId) queryOptions.resume = currentSessionId]: the
    [resume] option of the call, absent when no identifier is stored or the
    stored one is the empty string. *)
Definition resume_option (currentSessionId : option jsstr) : option jsstr :=
  match currentSessionId with
  | Some id => if nonempty id then Some id else None
  | None => None
  end.

(** The part of [onMessage] after the credential branch: the
    authentication gate, prompt validation and the call to [query]. *)
Definition handle_prompt (env : Env) (s : Server) (ws : conn) (data : json)
  : list Action * Task :=
  let isVerified := tokenVerified s !! ws in
  if negb (default false isVerified) then
    ([ws_send ws (Error (lit "Not authenticated."))], Settled Returned)
  else
    match opt_member data (lit "prompt") with
    | None => ([], Settled Returned)
    | Some p =>
        if negb (truthy p) then ([], Settled Returned)
        else
          match p with
          | JStr prompt =>
              if (100000 <? Z.of_nat (length prompt))%Z then
                ([ws_send ws (Error (lit "Prompt too long. Maximum 100000 characters"))],
                 Settled Returned)
              else if negb (env_set (ANTHROPIC_API_KEY env))
                      && negb (env_set (CLAUDE_CODE_OAUTH_TOKEN env)) then
                ([ws_send ws
                    (Error (lit "ANTHROPIC_API_KEY or CLAUDE_CODE_OAUTH_TOKEN must be configured"))],
                 Settled Returned)
              else
                let currentSessionId := sessionIds s !! ws in
                ([call_query ws prompt (resume_option currentSessionId)], AwaitNext ws)
          | _ => ([], Settled Returned)
          end
    end.

(** [onMessage], up to its first suspension. *)
Definition onMessage (env : Env) (s : Server) (ws : conn) (d : parsed)
  : list Action * Task :=
  match d with
  | SyntaxError => ([], Settled Returned)
  | Value data =>
      match member data (lit "token") with
      | None => ([], Settled Threw)
      | Some (Some token) =>
          if truthy token then ([call_verifyToken ws token], AwaitVerify ws)
          else handle_prompt env s ws data
      | Some None => handle_prompt env s ws data
      end
  end.

(** The loops over the content blocks of one message and over the
    characters of one block, up to the next suspension: either the pacing
    timer after a character has been sent, or the request for the next
    stream element once the blocks are used up. *)
Fixpoint stream_blocks (ws : conn) (blocks : list ContentBlock) : list Action * Task :=
  match blocks with
  | [] => ([], AwaitNext ws)
  | block :: rest =>
      if bool_decide (block_type block = lit "text") then
        match js_chars (block_text block) with
        | char :: chars => ([ws_send ws (Text char)], AwaitPace ws chars rest)
        | [] => stream_blocks ws rest
        end
      else stream_blocks ws rest
  end.

(** After the pacing timer has fired. *)
Definition after_pace (ws : conn) (chars : list jsstr) (blocks : list ContentBlock)
  : list Action * Task :=
  match chars with
  | char :: chars' => ([ws_send ws (Text char)], AwaitPace ws chars' blocks)
  | [] => stream_blocks ws blocks
  end.

(** The first statement of the loop body: the session id of an init
    message is stored as soon as the message is seen. *)
Definition capture_session (ws : conn) (m : SDKMessage) : list Action :=
  if bool_decide (msg_type m = lit "system")
     && bool_decide (msg_subtype m = Some (lit "init")) then
    match msg_session_id m with
    | Some id => if nonempty id then [sessionIds_set ws id] else []
    | None => []
    end
  else [].

(** The body of [for await (const message of response)]. *)
Definition on_sdk_message (ws : conn) (m : SDKMessage) : list Action * Task :=
  let stored := capture_session ws m in
  if bool_decide (msg_type m = lit "assistant") then
    match msg_content m with
    | Some content =>
        let '(sent, t) := stream_blocks ws content in (stored ++ sent, t)
    | None => (stored, AwaitNext ws)
    end
  else (stored, AwaitNext ws).

(** One resumption of a suspended invocation.  A response that does not
    answer what the invocation waits for is not accepted. *)
Definition resume (t : Task) (r : Response) : option (list Action * Task) :=
  match t, r with
  | AwaitVerify ws, Resolved result =>
      Some ([tokenVerified_set ws true; ws_send ws (TokenVerified true result)],
            Settled Returned)
  | AwaitVerify ws, Rejected =>
      Some ([ws_send ws (Error (lit "Token verification failed"))], Settled Returned)
  | AwaitNext ws, Yield m => Some (on_sdk_message ws m)
  | AwaitNext ws, Exhausted => Some ([ws_send ws Done], Settled Returned)
  | AwaitNext ws, Raised =>
      Some ([ws_send ws (Error (lit "Failed to process query"))], Settled Returned)
  | AwaitPace ws chars blocks, Tick => Some (after_pace ws chars blocks)
  | _, _ => None
  end.

(** An invocation driven through a sequence of responses. *)
Fixpoint feed (t : Task) (rs : list Response) : option (list Action * Task) :=
  match rs with
  | [] => Some ([], t)
  | r :: rs' =>
      match resume t r with
      | Some (acts, t') =>
          match feed t' rs' with
          | Some (acts', t'') => Some (acts ++ acts', t'')
          | None => None
          end
      | None => None
      end
  end.

(** ** The event loop *)

Record Sys := {
  server : Server;
  trace : list Action;
  pool : list Task
}.

Inductive Label :=
| Open (ws : conn)
| Message (ws : conn) (d : parsed)
| Resume (i : nat) (r : Response)
| Close (ws : conn).

Definition commit (sys : Sys) (acts : list Action) (pool' : list Task) : Sys :=
  {| server := perform_all (server sys) acts;
     trace := trace sys ++ acts;
     pool := pool' |}.

(** One turn of the event loop: the actions performed and the pool of
    invocations afterwards.  A message event starts a new invocation
    whatever the other invocations are doing.

    An invocation that throws is kept in the pool as [Settled Threw].  In
    the running server its rejected promise is handled by nobody and the
    process ends with it, so a state with such an invocation in its pool is
    one the server does not go on from; see [alive]. *)
Definition turn (env : Env) (sys : Sys) (l : Label) : option (list Action * list Task) :=
  match l with
  | Open ws => Some (onOpen ws, pool sys)
  | Message ws d =>
      let '(acts, t) := onMessage env (server sys) ws d in
      Some (acts, pool sys ++ [t])
  | Resume i r =>
      match pool sys !! i with
      | Some t =>
          match resume t r with
          | Some (acts, t') => Some (acts, <[i := t']> (pool sys))
          | None => None
          end
      | None => None
      end
  | Close ws => Some (onClose ws, pool sys)
  end.

Definition exec (env : Env) (sys : Sys) (l : Label) : option Sys :=
  match turn env sys l with
  | Some (acts, pool') => Some (commit sys acts pool')
  | None => None
  end.

Fixpoint run (env : Env) (sys : Sys) (ls : list Label) : option Sys :=
  match ls with
  | [] => Some sys
  | l :: ls' =>
      match exec env sys l with
      | Some sys' => run env sys' ls'
      | None => None
      end
  end.

Definition boot : Sys :=
  {| server := {| sessionIds := ∅; tokenVerified := ∅ |}; trace := []; pool := [] |}.

Inductive reachable (env : Env) : Sys -> Prop :=
| reachable_boot : reachable env boot
| reachable_exec sys l sys' :
    reachable env sys -> exec env sys l = Some sys' -> reachable env sys'.

(** ** Frames, streams and schedules *)

(** The two frames the client sends. *)
Definition credential_frame (token : jsstr) : parsed :=
  Value (JObj [(lit "token", JStr token)]).

Definition prompt_frame (prompt : jsstr) : parsed :=
  Value (JObj [(lit "prompt", JStr prompt)]).

(** The two kinds of SDK message the relay acts on. *)
Definition init_message (id : jsstr) : SDKMessage :=
  {| msg_type := lit "system"; msg_subtype := Some (lit "init");
     msg_session_id := Some id; msg_content := None |}.

Definition assistant_message (texts : list jsstr) : SDKMessage :=
  {| msg_type := lit "assistant"; msg_subtype := None; msg_session_id := None;
     msg_content :=
       Some ((fun t => {| block_type := lit "text"; block_text := t |}) <$> texts) |}.

(** The display units of the upstream sequence: the characters of the text
    blocks of the assistant messages, in upstream order. *)
Definition block_units (b : ContentBlock) : list jsstr :=
  if bool_decide (block_type b = lit "text") then js_chars (block_text b) else [].

Definition blocks_units (bs : list ContentBlock) : list jsstr :=
  concat (block_units <$> bs).

Definition display_units (m : SDKMessage) : list jsstr :=
  if bool_decide (msg_type m = lit "assistant") then
    match msg_content m with
    | Some content => blocks_units content
    | None => []
    end
  else [].

Definition stream_units (ms : list SDKMessage) : list jsstr :=
  concat (display_units <$> ms).

(** The text carried by the upstream sequence. *)
Definition block_text_of (b : ContentBlock) : jsstr :=
  if bool_decide (block_type b = lit "text") then block_text b else [].

Definition message_text (m : SDKMessage) : jsstr :=
  if bool_decide (msg_type m = lit "assistant") then
    match msg_content m with
    | Some content => concat (block_text_of <$> content)
    | None => []
    end
  else [].

(** The continuation identifier an init message carries, and the one
    captured from a sequence of messages: that of the last init message
    with an identifier. *)
Definition init_id (m : SDKMessage) : option jsstr :=
  if bool_decide (msg_type m = lit "system")
     && bool_decide (msg_subtype m = Some (lit "init")) then
    match msg_session_id m with
    | Some id => if nonempty id then Some id else None
    | None => None
    end
  else None.

Fixpoint captured (ms : list SDKMessage) : option jsstr :=
  match ms with
  | [] => None
  | m :: ms' =>
      match captured ms' with
      | Some id => Some id
      | None => init_id m
      end
  end.

(** How an upstream sequence ends. *)
Inductive Ending := Completes | Raises.

Definition terminal (e : Ending) : Response :=
  match e with Completes => Exhausted | Raises => Raised end.

Definition final (e : Ending) : WireMsg :=
  match e with Completes => Done | Raises => Error (lit "Failed to process query") end.

(** The responses one invocation receives for a given upstream sequence:
    each message, followed by one timer for every character it makes the
    relay send, and at last the end of the sequence. *)
Definition script_message (m : SDKMessage) : list Response :=
  Yield m :: repeat Tick (length (display_units m)).

Definition script (ms : list SDKMessage) (e : Ending) : list Response :=
  concat (script_message <$> ms) ++ [terminal e].

(** The wire messages among a list of actions, per connection. *)
Definition sent_to (ws : conn) (acts : list Action) : list WireMsg :=
  omap (fun a => match a with
                 | ws_send w m => if bool_decide (w = ws) then Some m else None
                 | _ => None
                 end) acts.

(** The calls to [query] among a list of actions, per connection: the
    prompt and the resume handle of each. *)
Definition queries_on (ws : conn) (acts : list Action) : list (jsstr * option jsstr) :=
  omap (fun a => match a with
                 | call_query w p r => if bool_decide (w = ws) then Some (p, r) else None
                 | _ => None
                 end) acts.

Definition verifications_on (ws : conn) (acts : list Action) : list json :=
  omap (fun a => match a with
                 | call_verifyToken w tok => if bool_decide (w = ws) then Some tok else None
                 | _ => None
                 end) acts.

(** The actions of a relay: what the loop does for the messages of a
    sequence. *)
Definition relay_sends (ws : conn) (units : list jsstr) : list Action :=
  (fun u => ws_send ws (Text u)) <$> units.

Definition transcript (ws : conn) (ms : list SDKMessage) : list Action :=
  concat ((fun m => capture_session ws m ++ relay_sends ws (display_units m)) <$> ms).

(** Invocations that hold an agent stream open. *)
Definition streaming_on (ws : conn) (t : Task) : bool :=
  match t with
  | AwaitNext w | AwaitPace w _ _ => bool_decide (w = ws)
  | AwaitVerify _ | Settled _ => false
  end.

Definition in_flight (ws : conn) (p : list Task) : nat :=
  length (List.filter (streaming_on ws) p).

(** A turn run with nothing else interleaved: the prompt is delivered and
    the invocation it starts, the last of the pool, is driven through the
    upstream sequence to its end. *)
Definition serial_turn (env : Env) (sys : Sys) (ws : conn)
    (prompt : jsstr) (ms : list SDKMessage) (e : Ending) : option Sys :=
  run env sys (Message ws (prompt_frame prompt)
               :: (Resume (length (pool sys)) <$> script ms e)).

Fixpoint serial_session (env : Env) (sys : Sys) (ws : conn)
    (turns : list (jsstr * (list SDKMessage * Ending))) : option Sys :=
  match turns with
  | [] => Some sys
  | (prompt, (ms, e)) :: rest =>
      match serial_turn env sys ws prompt ms e with
      | Some sys' => serial_session env sys' ws rest
      | None => None
      end
  end.

(** A prompt that passes validation, and an environment with an agent
    credential. *)
Definition acceptable (prompt : jsstr) : Prop :=
  prompt <> [] /\ (Z.of_nat (length prompt) <= 100000)%Z.

Definition configured (env : Env) : Prop :=
  env_set (ANTHROPIC_API_KEY env) || env_set (CLAUDE_CODE_OAUTH_TOKEN env) = true.

(** A configured environment and a few concrete values for examples. *)
Definition env_ok : Env :=
  {| ANTHROPIC_API_KEY := Some (lit "sk"); CLAUDE_CODE_OAUTH_TOKEN := None |}.

Definition subject : json := JObj [(lit "sub", JStr (lit "user_1"))].

(** A connection that has been opened and authenticated. *)
Definition signed_in : list Label :=
  [Open 1; Message 1 (credential_frame (lit "jwt")); Resume 0 (Resolved subject)].

(** The loops of one message, fed one timer per character, send the
    characters of the blocks in order and come back to the stream. *)
Definition blocks_relayed (ws : conn) (blocks : list ContentBlock) : Prop :=
  forall acts t, stream_blocks ws blocks = (acts, t) ->
    exists acts',
      feed t (repeat Tick (length (blocks_units blocks))) = Some (acts', AwaitNext ws)
      /\ acts ++ acts' = relay_sends ws (blocks_units blocks).

(** The timers a suspended relay has to see before it asks for the next
    stream element. *)
Definition ticks_needed (t : Task) : nat :=
  match t with
  | AwaitPace _ chars blocks => S (length (chars ++ blocks_units blocks))
  | AwaitVerify _ | AwaitNext _ | Settled _ => 0
  end.

(** A frame without a credential: [data.token] is read without error and is
    absent or falsy. *)
Definition no_credential (data : json) : Prop :=
  match member data (lit "token") with
  | Some (Some token) => truthy token = false
  | Some None => True
  | None => False
  end.

(** [typeof v === 'string'] *)
Definition is_text (v : json) : bool :=
  match v with JStr _ => true | _ => false end.

(** A frame that carries an empty [token] next to a [prompt]. *)
Definition empty_token_frame : parsed :=
  Value (JObj [(lit "token", JStr []); (lit "prompt", JStr (lit "hi"))]).

(** A prompt of 100001 code units. *)
Definition long_prompt : jsstr := repeat 97%N (Z.to_nat 100001).

(** ** The authentication gate, on traces *)

(** The actions of a relay on [ws]: storing a session identifier, and
    sending [text], [done] or [error]. *)
Definition relay_action (ws : conn) (a : Action) : Prop :=
  match a with
  | sessionIds_set w _ => w = ws
  | ws_send w (Text _ | Done | Error _) => w = ws
  | _ => False
  end.

(** The actions reserved to authenticated connections: sending [text] or
    [done], and calling the agent. *)
Definition needs_auth (ws : conn) (a : Action) : Prop :=
  match a with
  | ws_send w (Text _ | Done) => w = ws
  | call_query w _ _ => w = ws
  | _ => False
  end.

(** [tokenVerified{success:true}] has been sent on [ws]. *)
Definition announced (ws : conn) (tr : list Action) : Prop :=
  exists i result, tr !! i = Some (ws_send ws (TokenVerified true result)).

(** Every reserved action on [ws] comes later in the trace than a
    [tokenVerified{success:true}] on [ws]. *)
Definition gated (ws : conn) (tr : list Action) : Prop :=
  forall j a, tr !! j = Some a -> needs_auth ws a ->
    exists i result, i < j /\ tr !! i = Some (ws_send ws (TokenVerified true result)).

(** The connection is marked verified or has an invocation holding an
    agent stream. *)
Definition entitled (ws : conn) (sys : Sys) : Prop :=
  tokenVerified (server sys) !! ws = Some true
  \/ exists i t, pool sys !! i = Some t /\ streaming_on ws t = true.

Definition session_inv (sys : Sys) : Prop :=
  (forall ws, entitled ws sys -> announced ws (trace sys))
  /\ (forall ws, gated ws (trace sys)).

(** The labels of a turn served with nothing interleaved, for the upstream
    text "hi" on connection 1, after [signed_in]. *)
Definition hi_labels : list Label :=
  signed_in ++
  [Message 1 (prompt_frame (lit "hi"));
   Resume 1 (Yield (init_message (lit "s1")));
   Resume 1 (Yield (assistant_message [lit "hi"]));
   Resume 1 Tick; Resume 1 Tick; Resume 1 Exhausted].

(** The calls to [query] that a series of turns served one after the other
    is expected to make, starting from the stored identifier [h]: each
    turn resumes what is stored, and a turn that captured an identifier
    stores it for the next one.  Written from the claim, to be compared
    with [serial_session]. *)
Fixpoint handles_used (h : option jsstr)
    (turns : list (jsstr * (list SDKMessage * Ending))) : list (jsstr * option jsstr) :=
  match turns with
  | [] => []
  | (prompt, (ms, _)) :: rest =>
      (prompt, resume_option h)
      :: handles_used (match captured ms with Some id => Some id | None => h end) rest
  end.

(** Two prompts delivered back to back on an authenticated connection. *)
Definition two_prompts : list Label :=
  signed_in ++ [Message 1 (prompt_frame (lit "a")); Message 1 (prompt_frame (lit "b"))].

(** * The other handlers of the server, and the client's message handler

    The request handlers of [POST /query], [GET /auth/verify] and
    [GET /health] keep no state between requests and share none with the
    WebSocket handler, so each is a function of the request, of the
    environment and of what the external service answers. *)

(** ** Strings, continued *)

(** [s.startsWith(p)] *)
Fixpoint starts_with (p s : jsstr) : bool :=
  match p, s with
  | [], _ => true
  | _ :: _, [] => false
  | a :: p', b :: s' => bool_decide (a = b) && starts_with p' s'
  end.

(** [s.replace(pat, '')] for a string pattern: the first occurrence of
    [pat], the leftmost one, is taken out. *)
Fixpoint replace_first (pat s : jsstr) : jsstr :=
  if starts_with pat s then drop (length pat) s
  else
    match s with
    | [] => []
    | u :: rest => u :: replace_first pat rest
    end.

(** A value that may be [undefined], used as a condition. *)
Definition truthy_opt (v : option json) : bool :=
  match v with
  | Some x => truthy x
  | None => false
  end.

(** ** Requests and responses *)

(** [c.req.header('x-api-key')] and [c.req.header('authorization')]. *)
Record Headers := {
  x_api_key : option jsstr;
  authorization : option jsstr
}.

(** Why a handler's [catch] ran; it decides [error.message]. *)
Inductive Cause :=
| BodyNotJson
| BodyNotObject
| OptionsNull
| StreamRaised.

(** The bodies the handlers pass to [c.json]. *)
Inductive HttpBody :=
| ErrorBody (error : jsstr)
| FailureBody (error : jsstr) (details : Cause)
| QueryBody (response : jsstr)
| VerifiedBody (userId : option json).

Record HttpResponse := { status : N; payload : HttpBody }.

(** The call [query({prompt, options})] of the REST endpoint, with the
    model it asks for. *)
Record RestCall := { rest_prompt : jsstr; rest_model : json }.

(** ** [checkApiAuth] *)

Definition checkApiAuth (configuredKey : option jsstr) (h : Headers) : bool :=
  if negb (env_set configuredKey) then true
  else
    let bearer := replace_first (lit "Bearer ") <$> authorization h in
    let apiKey :=
      match x_api_key h with
      | Some k => if nonempty k then Some k else bearer
      | None => bearer
      end in
    bool_decide (apiKey = configuredKey).

(** ** [POST /query] *)

(** The template string that wraps the user's prompt. *)
Definition coordinated_prefix : jsstr :=
  lit "The user has sent this request: " ++ [34%N].

Definition coordinated_suffix : jsstr :=
  [34; 10; 10]%N
  ++ lit "Please coordinate with the canadian_agent and australian_agent subagents to discuss this request and provide their perspectives. Use the Task tool to ask each agent for their viewpoint, then synthesize their discussion into a helpful response for the user."
  ++ [10; 10]%N
  ++ lit "Format the response to show each agent's perspective clearly, then provide a summary.".

Definition coordinatedPrompt (prompt : jsstr) : jsstr :=
  coordinated_prefix ++ prompt ++ coordinated_suffix.

(** The loop over the agent's messages: [responseText += block.text] for
    the text blocks of the assistant messages. *)
Definition append_blocks (responseText : jsstr) (content : list ContentBlock) : jsstr :=
  fold_left
    (fun acc block =>
       if bool_decide (block_type block = lit "text") then acc ++ block_text block
       else acc)
    content responseText.

Definition collect_text (ms : list SDKMessage) : jsstr :=
  fold_left
    (fun acc m =>
       if bool_decide (msg_type m = lit "assistant") then
         match msg_content m with
         | Some content => append_blocks acc content
         | None => acc
         end
       else acc)
    ms [].

Definition failure (details : Cause) : HttpResponse :=
  {| status := 500; payload := FailureBody (lit "Failed to process query") details |}.

Definition refusal (code : N) (error : jsstr) : HttpResponse :=
  {| status := code; payload := ErrorBody error |}.

(** The handler of [POST /query]: the response, and the calls made to
    [query].  [body] is what [c.req.json()] makes of the request body;
    [ms] and [e] are what the agent's stream brings if it is consumed. *)
Definition post_query (configuredKey : option jsstr) (env : Env) (h : Headers)
    (body : parsed) (ms : list SDKMessage) (e : Ending)
  : HttpResponse * list RestCall :=
  if negb (checkApiAuth configuredKey h) then
    (refusal 401 (lit "Unauthorized - Invalid or missing API key"), [])
  else
    match body with
    | SyntaxError => (failure BodyNotJson, [])
    | Value data =>
        match member data (lit "prompt"), member data (lit "options") with
        | Some prompt, Some opts =>
            let options := match opts with Some o => o | None => JObj [] end in
            if negb (truthy_opt prompt) then
              (refusal 400 (lit "Prompt is required"), [])
            else
              match prompt with
              | Some (JStr text) =>
                  if (100000 <? Z.of_nat (length text))%Z then
                    (refusal 400 (lit "Prompt too long. Maximum 100000 characters"), [])
                  else if negb (env_set (ANTHROPIC_API_KEY env))
                          && negb (env_set (CLAUDE_CODE_OAUTH_TOKEN env)) then
                    (refusal 401
                       (lit "ANTHROPIC_API_KEY or CLAUDE_CODE_OAUTH_TOKEN must be configured"),
                     [])
                  else
                    match member options (lit "model") with
                    | Some model =>
                        let call :=
                          {| rest_prompt := coordinatedPrompt text;
                             rest_model :=
                               match model with
                               | Some m =>
                                   if truthy m then m else JStr (lit "claude-sonnet-4-5")
                               | None => JStr (lit "claude-sonnet-4-5")
                               end |} in
                        match e with
                        | Completes =>
                            ({| status := 200; payload := QueryBody (collect_text ms) |},
                             [call])
                        | Raises => (failure StreamRaised, [call])
                        end
                    | None => (failure OptionsNull, [])
                    end
              | _ => (refusal 400 (lit "Prompt must be a string"), [])
              end
        | _, _ => (failure BodyNotObject, [])
        end
    end.

(** ** [GET /auth/verify] *)

(** What [verifyToken] answers. *)
Inductive Verdict :=
| Valid (result : json)
| Invalid.

(** The handler: the response and the tokens handed to [verifyToken]. *)
Definition auth_verify (authHeader : option jsstr) (v : Verdict)
  : HttpResponse * list jsstr :=
  match authHeader with
  | Some header =>
      if negb (nonempty header) || negb (starts_with (lit "Bearer ") header) then
        (refusal 401 (lit "No token provided"), [])
      else
        let token := drop 7 header in
        match v with
        | Valid result =>
            match member result (lit "sub") with
            | Some sub => ({| status := 200; payload := VerifiedBody sub |}, [token])
            | None => (refusal 401 (lit "Invalid token"), [token])
            end
        | Invalid => (refusal 401 (lit "Invalid token"), [token])
        end
  | None => (refusal 401 (lit "No token provided"), [])
  end.

(** ** [GET /health] *)

(** The body of the health response, without its timestamp. *)
Record Health := {
  health_status : jsstr;
  hasApiKey : bool;
  sdkLoaded : bool;
  health_message : jsstr
}.

(** [loaded] is [typeof query === "function"]. *)
Definition health (env : Env) (loaded : bool) : Health :=
  let hasApiKey :=
    env_set (ANTHROPIC_API_KEY env) || env_set (CLAUDE_CODE_OAUTH_TOKEN env) in
  {| health_status := if hasApiKey && loaded then lit "healthy" else lit "unhealthy";
     hasApiKey := hasApiKey;
     sdkLoaded := loaded;
     health_message := lit "Claude Agent SDK API with CLI" |}.

(** ** The client's [ws.onmessage]

    What the handler appends to the terminal pane for one wire message. *)
Definition client_log (m : WireMsg) : jsstr :=
  match m with
  | Text chunk => chunk
  | Done => [10%N]
  | Ready => lit "Ready for your questions..." ++ [10; 10]%N
  | TokenVerified true _ => [10004%N] ++ lit " Authentication verified" ++ [10; 10]%N
  | TokenVerified false _ => [10006%N] ++ lit " Authentication failed" ++ [10%N]
  | Error message => [10006%N] ++ lit " Error: " ++ message ++ [10%N]
  end.

(** The pane after a sequence of wire messages: [textContent += s]. *)
Definition client_pane (pane : jsstr) (msgs : list WireMsg) : jsstr :=
  fold_left (fun acc m => acc ++ client_log m) msgs pane.

(** ** Connections and counts, for statements about the event loop *)

(** The connection an action is about. *)
Definition action_conn (a : Action) : conn :=
  match a with
  | sessionIds_set ws _ | sessionIds_delete ws
  | tokenVerified_set ws _ | tokenVerified_delete ws
  | ws_send ws _ | call_verifyToken ws _ | call_query ws _ _ => ws
  end.

(** The connection an invocation serves. *)
Definition task_conn (t : Task) : option conn :=
  match t with
  | AwaitVerify ws | AwaitNext ws | AwaitPace ws _ _ => Some ws
  | Settled _ => None
  end.

(** The connection a turn of the event loop is for. *)
Definition label_conn (sys : Sys) (l : Label) : option conn :=
  match l with
  | Open ws | Message ws _ | Close ws => Some ws
  | Resume i _ => pool sys !! i ≫= task_conn
  end.

(** Calls to the two external services among a list of actions, message
    events among labels, timers among responses, [text] among wire
    messages. *)
Definition is_call (a : Action) : bool :=
  match a with
  | call_verifyToken _ _ | call_query _ _ _ => true
  | _ => false
  end.

Definition is_message (l : Label) : bool :=
  match l with Message _ _ => true | _ => false end.

Definition is_tick (r : Response) : bool :=
  match r with Tick => true | _ => false end.

Definition is_text_msg (m : WireMsg) : bool :=
  match m with Text _ => true | _ => false end.

(** A string without surrogate code units. *)
Definition is_surrogate (u : N) : bool := is_high_surrogate u || is_low_surrogate u.

(** The two shapes of a value of the string iterator. *)
Definition code_point (c : jsstr) : Prop :=
  (exists u, c = [u])
  \/ (exists h l, c = [h; l] /\ is_high_surrogate h = true /\ is_low_surrogate l = true).

(** ** Definitions for the statements about handles, tokens and pairs *)

(** How one turn of the event loop is expected to change the session
    identifier stored for [ws]: [onOpen] stores the empty string, [onClose]
    removes the entry, an init message with an identifier consumed by an
    invocation of [ws] stores that identifier, and nothing else touches it.
    Written from the amended claim, to be compared with [exec]. *)
Definition handle_step (sys : Sys) (l : Label) (ws : conn) (h : option jsstr)
  : option jsstr :=
  match l with
  | Open w => if bool_decide (w = ws) then Some [] else h
  | Close w => if bool_decide (w = ws) then None else h
  | Resume i (Yield m) =>
      if bool_decide (label_conn sys l = Some ws) then
        match init_id m with
        | Some id => Some id
        | None => h
        end
      else h
  | Resume _ _ | Message _ _ => h
  end.

(** The same over a run. *)
Fixpoint handle_after (env : Env) (sys : Sys) (ls : list Label) (ws : conn)
    (h : option jsstr) : option jsstr :=
  match ls with
  | [] => h
  | l :: ls' =>
      match exec env sys l with
      | Some sys' => handle_after env sys' ls' ws (handle_step sys l ws h)
      | None => h
      end
  end.

(** A parsed object without its [token] property; other values as they
    are. *)
Definition drop_property (k : jsstr) (props : list (jsstr * json))
  : list (jsstr * json) :=
  List.filter (fun kv => negb (bool_decide (fst kv = k))) props.

Definition without_token (data : json) : json :=
  match data with
  | JObj props => JObj (drop_property (lit "token") props)
  | _ => data
  end.

(** No surrogate pair is split: a chunk that is a lone high surrogate is
    never followed by a chunk that begins with a low surrogate. *)
Definition pairs_kept (chunks : list jsstr) : Prop :=
  forall i h l rest,
    chunks !! i = Some [h] -> is_high_surrogate h = true ->
    chunks !! S i = Some (l :: rest) ->
    is_low_surrogate l = false.

(** The texts of the text blocks of the assistant messages, in order. *)
Definition message_blocks (m : SDKMessage) : list jsstr :=
  if bool_decide (msg_type m = lit "assistant") then
    match msg_content m with
    | Some content =>
        block_text <$> List.filter (fun b => bool_decide (block_type b = lit "text")) content
    | None => []
    end
  else [].

Definition text_blocks (ms : list SDKMessage) : list jsstr :=
  concat (message_blocks <$> ms).

(** A header value as the HTTP layer hands it over: without white space
    at either end. *)
Definition is_space (u : N) : bool := bool_decide (u = 32%N) || bool_decide (u = 9%N).

Definition trimmed (s : jsstr) : Prop :=
  default false (is_space <$> head s) = false
  /\ default false (is_space <$> last s) = false.

(** No invocation has thrown: the process is running. *)
Definition threw (t : Task) : bool :=
  match t with Settled Threw => true | _ => false end.

Definition alive (sys : Sys) : Prop := existsb threw (pool sys) = false.

(** * Properties *)

(** ** First runs *)

Example js_chars_surrogates :
  js_chars [55357; 56832; 97; 55357]%N = [[55357; 56832]; [97]; [55357]]%N.
Proof. reflexivity. Qed.

Example null_frame_throws :
  onMessage env_ok (server boot) 1 (Value JNull) = ([], Settled Threw).
Proof. reflexivity. Qed.

Example prompt_before_token :
  onMessage env_ok (server boot) 1 (prompt_frame (lit "hi")) =
  ([ws_send 1 (Error (lit "Not authenticated."))], Settled Returned).
Proof. reflexivity. Qed.

Example signed_in_trace :
  trace <$> run env_ok boot signed_in =
  Some [sessionIds_set 1 []; tokenVerified_set 1 false; ws_send 1 Ready;
        call_verifyToken 1 (JStr (lit "jwt"));
        tokenVerified_set 1 true; ws_send 1 (TokenVerified true subject)].
Proof. reflexivity. Qed.

Example hi_turn :
  (fun sys => sent_to 1 (trace sys)) <$>
    run env_ok boot (signed_in ++
      [Message 1 (prompt_frame (lit "hi"));
       Resume 1 (Yield (init_message (lit "s1")));
       Resume 1 (Yield (assistant_message [lit "hi"]));
       Resume 1 Tick; Resume 1 Tick; Resume 1 Exhausted]) =
  Some [Ready; TokenVerified true subject; Text (lit "h"); Text (lit "i"); Done].
Proof. vm_compute. reflexivity. Qed.

(** ** Strings *)

Lemma js_chars_concat_bounded (n : nat) :
  forall s : jsstr, length s <= n -> concat (js_chars s) = s.
Proof.
  induction n as [|n IH]; intros [|u rest] Hlen; cbn [length] in Hlen;
    try reflexivity; try lia.
  cbn [js_chars]. destruct (is_high_surrogate u).
  - destruct rest as [|v rest']; [reflexivity|].
    destruct (is_low_surrogate v); cbn [concat app].
    + rewrite IH; [reflexivity | cbn [length] in Hlen; lia].
    + rewrite IH; [reflexivity | lia].
  - cbn [concat app]. rewrite IH; [reflexivity | lia].
Qed.

Lemma js_chars_concat (s : jsstr) : concat (js_chars s) = s.
Proof. apply (js_chars_concat_bounded (length s)). lia. Qed.

Lemma blocks_units_cons b bs :
  blocks_units (b :: bs) = block_units b ++ blocks_units bs.
Proof. reflexivity. Qed.

Lemma blocks_units_concat bs :
  concat (blocks_units bs) = concat (block_text_of <$> bs).
Proof.
  induction bs as [|b bs IH]; [reflexivity|].
  rewrite blocks_units_cons, concat_app, IH. cbn [fmap list_fmap concat].
  f_equal. unfold block_units, block_text_of.
  case_bool_decide; [apply js_chars_concat | reflexivity].
Qed.

Lemma stream_units_concat ms :
  concat (stream_units ms) = concat (message_text <$> ms).
Proof.
  induction ms as [|m ms IH]; [reflexivity|].
  unfold stream_units in *. cbn [fmap list_fmap concat].
  rewrite concat_app, IH. f_equal.
  unfold display_units, message_text.
  case_bool_decide; [|reflexivity].
  destruct (msg_content m); [apply blocks_units_concat | reflexivity].
Qed.

(** ** Projections of action lists *)

Lemma sent_to_app ws a1 a2 : sent_to ws (a1 ++ a2) = sent_to ws a1 ++ sent_to ws a2.
Proof. apply omap_app. Qed.

Lemma queries_on_app ws a1 a2 :
  queries_on ws (a1 ++ a2) = queries_on ws a1 ++ queries_on ws a2.
Proof. apply omap_app. Qed.

Lemma sent_to_relay_sends ws us : sent_to ws (relay_sends ws us) = Text <$> us.
Proof.
  induction us as [|u us IH]; [reflexivity|].
  cbn. rewrite bool_decide_eq_true_2 by reflexivity. f_equal. exact IH.
Qed.

Lemma queries_on_relay_sends ws w us : queries_on ws (relay_sends w us) = [].
Proof. induction us as [|u us IH]; [reflexivity | exact IH]. Qed.

Lemma capture_session_init_id ws m :
  capture_session ws m =
  match init_id m with Some id => [sessionIds_set ws id] | None => [] end.
Proof.
  unfold capture_session, init_id.
  destruct (_ && _); [|reflexivity].
  destruct (msg_session_id m) as [id|]; [|reflexivity].
  destruct (nonempty id); reflexivity.
Qed.

Lemma sent_to_capture_session ws w m : sent_to ws (capture_session w m) = [].
Proof. rewrite capture_session_init_id. destruct (init_id m); reflexivity. Qed.

Lemma queries_on_capture_session ws w m : queries_on ws (capture_session w m) = [].
Proof. rewrite capture_session_init_id. destruct (init_id m); reflexivity. Qed.

Lemma transcript_cons ws m ms :
  transcript ws (m :: ms) =
  (capture_session ws m ++ relay_sends ws (display_units m)) ++ transcript ws ms.
Proof. reflexivity. Qed.

Lemma sent_to_transcript ws ms :
  sent_to ws (transcript ws ms) = Text <$> stream_units ms.
Proof.
  induction ms as [|m ms IH]; [reflexivity|].
  rewrite transcript_cons, !sent_to_app, sent_to_capture_session,
    sent_to_relay_sends, IH.
  unfold stream_units. cbn [fmap list_fmap concat app].
  now rewrite fmap_app.
Qed.

Lemma queries_on_transcript ws w ms : queries_on ws (transcript w ms) = [].
Proof.
  induction ms as [|m ms IH]; [reflexivity|].
  rewrite transcript_cons, !queries_on_app, queries_on_capture_session,
    queries_on_relay_sends, IH. reflexivity.
Qed.

(** ** One invocation driven through its upstream sequence *)

Lemma feed_app t rs1 rs2 :
  feed t (rs1 ++ rs2) =
  match feed t rs1 with
  | Some (a1, t1) =>
      match feed t1 rs2 with
      | Some (a2, t2) => Some (a1 ++ a2, t2)
      | None => None
      end
  | None => None
  end.
Proof.
  revert t. induction rs1 as [|r rs1 IH]; intros t; cbn [app feed].
  - destruct (feed t rs2) as [[a2 t2]|]; reflexivity.
  - destruct (resume t r) as [[a t']|]; [|reflexivity].
    rewrite IH. destruct (feed t' rs1) as [[a1 t1]|]; [|reflexivity].
    destruct (feed t1 rs2) as [[a2 t2]|]; [|reflexivity].
    now rewrite app_assoc.
Qed.

Section Relay.
Variable ws : conn.

Lemma pace_feed rest (chars : list jsstr) :
  blocks_relayed ws rest ->
  feed (AwaitPace ws chars rest)
       (repeat Tick (S (length (chars ++ blocks_units rest)))) =
  Some (relay_sends ws (chars ++ blocks_units rest), AwaitNext ws).
Proof.
  intros Hrest. induction chars as [|c chars IH].
  - cbn [app repeat feed resume after_pace].
    destruct (stream_blocks ws rest) as [acts t] eqn:E.
    destruct (Hrest _ _ E) as (acts' & -> & <-). reflexivity.
  - cbn [app length]. change (repeat Tick (S ?n)) with (Tick :: repeat Tick n).
    cbn [feed resume after_pace]. rewrite IH. reflexivity.
Qed.

Lemma stream_blocks_feed blocks : blocks_relayed ws blocks.
Proof.
  induction blocks as [|b rest IH]; intros acts t E.
  - injection E as <- <-. exists []. split; reflexivity.
  - rewrite blocks_units_cons. cbn [stream_blocks] in E. unfold block_units.
    destruct (bool_decide (block_type b = lit "text")).
    + destruct (js_chars (block_text b)) as [|c chars].
      * apply IH, E.
      * injection E as <- <-. eexists. split.
        -- cbn [app length]. apply pace_feed, IH.
        -- reflexivity.
    + apply IH, E.
Qed.

Lemma feed_script_message m :
  feed (AwaitNext ws) (script_message m) =
  Some (capture_session ws m ++ relay_sends ws (display_units m), AwaitNext ws).
Proof.
  unfold script_message. cbn [feed resume]. unfold on_sdk_message, display_units.
  destruct (bool_decide (msg_type m = lit "assistant")).
  - destruct (msg_content m) as [content|].
    + destruct (stream_blocks ws content) as [sent t] eqn:E.
      destruct (stream_blocks_feed content _ _ E) as (acts' & -> & <-).
      now rewrite app_assoc.
    + reflexivity.
  - reflexivity.
Qed.

Lemma feed_messages ms :
  feed (AwaitNext ws) (concat (script_message <$> ms)) =
  Some (transcript ws ms, AwaitNext ws).
Proof.
  induction ms as [|m ms IH]; [reflexivity|].
  cbn [fmap list_fmap concat]. rewrite feed_app, feed_script_message.
  change (list_fmap _ _ script_message ms) with (script_message <$> ms).
  rewrite IH. reflexivity.
Qed.

Lemma feed_script ms e :
  feed (AwaitNext ws) (script ms e) =
  Some (transcript ws ms ++ [ws_send ws (final e)], Settled Returned).
Proof.
  unfold script. rewrite feed_app, feed_messages. destruct e; reflexivity.
Qed.
End Relay.

(** ** The stores *)

Lemma perform_all_app s a1 a2 :
  perform_all s (a1 ++ a2) = perform_all (perform_all s a1) a2.
Proof. apply fold_left_app. Qed.

Lemma perform_all_relay_sends s ws us : perform_all s (relay_sends ws us) = s.
Proof. induction us as [|u us IH]; [reflexivity | exact IH]. Qed.

Lemma perform_all_transcript s ws ms :
  perform_all s (transcript ws ms) =
  {| sessionIds := match captured ms with
                   | Some id => <[ws := id]> (sessionIds s)
                   | None => sessionIds s
                   end;
     tokenVerified := tokenVerified s |}.
Proof.
  revert s. induction ms as [|m ms IH]; intros s.
  - destruct s; reflexivity.
  - rewrite transcript_cons, !perform_all_app, perform_all_relay_sends, IH.
    rewrite capture_session_init_id. cbn [captured].
    destruct (captured ms) as [id|], (init_id m) as [id0|]; cbn;
      try reflexivity.
    now rewrite insert_insert_eq.
Qed.

(** ** Runs of the event loop *)

Lemma commit_nil sys : commit sys [] (pool sys) = sys.
Proof. destruct sys. unfold commit. cbn. now rewrite app_nil_r. Qed.

Lemma commit_commit sys a1 p1 a2 p2 :
  commit (commit sys a1 p1) a2 p2 = commit sys (a1 ++ a2) p2.
Proof. unfold commit. cbn. now rewrite perform_all_app, app_assoc. Qed.

(** Driving the invocation at position [i] through responses it accepts is
    a run of the event loop that performs the invocation's actions. *)
Lemma run_resume_feed env i rs :
  forall sys t acts t',
    pool sys !! i = Some t ->
    feed t rs = Some (acts, t') ->
    run env sys (Resume i <$> rs) = Some (commit sys acts (<[i := t']> (pool sys))).
Proof.
  induction rs as [|r rs IH]; intros sys t acts t' Hi Hfeed.
  - injection Hfeed as <- <-. cbn. now rewrite list_insert_id, commit_nil.
  - cbn [feed] in Hfeed.
    destruct (resume t r) as [[a1 t1]|] eqn:Hr; [|discriminate].
    destruct (feed t1 rs) as [[a2 t2]|] eqn:Hf; [|discriminate].
    injection Hfeed as <- <-.
    cbn [fmap list_fmap run]. unfold exec, turn. rewrite Hi, Hr.
    change (list_fmap _ _ (Resume i) rs) with (Resume i <$> rs).
    assert (Hlt : i < length (pool sys)) by (eapply lookup_lt_Some; eassumption).
    rewrite (IH _ t1 a2 t2); [| cbn; now apply list_lookup_insert_eq | assumption].
    rewrite commit_commit. cbn [pool commit]. now rewrite list_insert_insert_eq.
Qed.

Lemma onMessage_prompt env s ws prompt :
  tokenVerified s !! ws = Some true ->
  acceptable prompt ->
  configured env ->
  onMessage env s ws (prompt_frame prompt) =
  ([call_query ws prompt (resume_option (sessionIds s !! ws))], AwaitNext ws).
Proof.
  intros Hv [Hne Hlen] Hcfg. unfold onMessage, prompt_frame.
  change (member _ (lit "token")) with (Some (@None json)). cbv iota.
  unfold handle_prompt. rewrite Hv. cbn [from_option id negb].
  change (opt_member _ (lit "prompt")) with (Some (JStr prompt)). cbv iota.
  cbn [truthy]. destruct prompt as [|u prompt]; [congruence|]. cbn [nonempty negb].
  destruct (Z.ltb_spec 100000 (Z.of_nat (length (u :: prompt)))); [lia|].
  unfold configured in Hcfg.
  destruct (env_set (ANTHROPIC_API_KEY env)), (env_set (CLAUDE_CODE_OAUTH_TOKEN env));
    try discriminate; reflexivity.
Qed.

(** A turn with nothing interleaved: what it does to the system. *)
Lemma serial_turn_spec env sys ws prompt ms e :
  tokenVerified (server sys) !! ws = Some true ->
  acceptable prompt ->
  configured env ->
  serial_turn env sys ws prompt ms e =
  Some (commit sys
          (call_query ws prompt (resume_option (sessionIds (server sys) !! ws))
           :: transcript ws ms ++ [ws_send ws (final e)])
          (pool sys ++ [Settled Returned])).
Proof.
  intros Hv Hp Hcfg. unfold serial_turn. cbn [run]. unfold exec at 1. cbn [turn].
  rewrite (onMessage_prompt env _ ws prompt Hv Hp Hcfg).
  set (sys1 := commit sys _ _).
  rewrite (run_resume_feed env (length (pool sys)) (script ms e) sys1 (AwaitNext ws)
             _ _ (list_lookup_middle (pool sys) [] (AwaitNext ws) _ eq_refl)
             (feed_script ws ms e)).
  subst sys1. rewrite commit_commit. f_equal. f_equal.
  cbn [pool commit].
  rewrite insert_app_r_alt by lia. now rewrite Nat.sub_diag.
Qed.

(** ** Every finished relay followed the script of its upstream sequence *)

Lemma stream_blocks_pending ws blocks acts t :
  stream_blocks ws blocks = (acts, t) ->
  streaming_on ws t = true /\ ticks_needed t = length (blocks_units blocks).
Proof.
  revert acts t. induction blocks as [|b rest IH]; intros acts t E.
  - injection E as <- <-. cbn. split; [now apply bool_decide_eq_true_2 | reflexivity].
  - rewrite blocks_units_cons. cbn [stream_blocks] in E. unfold block_units.
    destruct (bool_decide (block_type b = lit "text")).
    + destruct (js_chars (block_text b)) as [|c chars].
      * apply IH in E. exact E.
      * injection E as <- <-. cbn.
        split; [now apply bool_decide_eq_true_2 | reflexivity].
    + apply IH in E. exact E.
Qed.

Lemma on_sdk_message_pending ws m acts t :
  on_sdk_message ws m = (acts, t) ->
  streaming_on ws t = true /\ ticks_needed t = length (display_units m).
Proof.
  unfold on_sdk_message, display_units. intros E.
  assert (Hnext : streaming_on ws (AwaitNext ws) = true)
    by (cbn; now apply bool_decide_eq_true_2).
  destruct (bool_decide (msg_type m = lit "assistant")).
  - destruct (msg_content m) as [content|].
    + destruct (stream_blocks ws content) as [sent t0] eqn:E0.
      injection E as <- <-. eapply stream_blocks_pending, E0.
    + injection E as <- <-. now split.
  - injection E as <- <-. now split.
Qed.

Lemma feed_settled c rs acts t : feed (Settled c) rs = Some (acts, t) -> rs = [].
Proof. destruct rs as [|r rs]; [reflexivity | discriminate]. Qed.

Lemma script_cons m ms e :
  script (m :: ms) e = Yield m :: repeat Tick (length (display_units m)) ++ script ms e.
Proof. unfold script. cbn [fmap list_fmap concat script_message app]. now rewrite app_assoc. Qed.

Lemma feed_complete_script ws rs :
  forall t acts c,
    streaming_on ws t = true ->
    feed t rs = Some (acts, Settled c) ->
    exists ms e, rs = repeat Tick (ticks_needed t) ++ script ms e.
Proof.
  induction rs as [|r rs IH]; intros t acts c Hs Hfeed.
  - injection Hfeed as _ ->. discriminate.
  - cbn [feed] in Hfeed.
    destruct (resume t r) as [[a1 t1]|] eqn:Hr; [|discriminate].
    destruct (feed t1 rs) as [[a2 t2]|] eqn:Hf; [|discriminate].
    injection Hfeed as _ ->.
    destruct t as [w|w|w chars blocks|c0]; try discriminate.
    + apply bool_decide_eq_true_1 in Hs. subst w.
      destruct r; try discriminate; cbn [resume] in Hr.
      * injection Hr as Hm. destruct (on_sdk_message_pending _ _ _ _ Hm) as [Hs1 Ht1].
        destruct (IH _ _ _ Hs1 Hf) as (ms & e & ->).
        exists (m :: ms), e. rewrite script_cons, Ht1. reflexivity.
      * injection Hr as _ <-. apply feed_settled in Hf. subst rs.
        now exists [], Completes.
      * injection Hr as _ <-. apply feed_settled in Hf. subst rs.
        now exists [], Raises.
    + apply bool_decide_eq_true_1 in Hs. subst w.
      destruct r; try discriminate; cbn [resume] in Hr.
      injection Hr as Hp. destruct chars as [|ch chars]; cbn [after_pace] in Hp.
      * destruct (stream_blocks_pending _ _ _ _ Hp) as [Hs1 Ht1].
        destruct (IH _ _ _ Hs1 Hf) as (ms & e & ->).
        exists ms, e. cbn [ticks_needed app]. rewrite <- Ht1. reflexivity.
      * injection Hp as _ <-.
        destruct (IH (AwaitPace ws chars blocks) _ _
                    ltac:(cbn; now apply bool_decide_eq_true_2) Hf) as (ms & e & ->).
        exists ms, e. reflexivity.
Qed.

(** C5.  An invocation whose upstream sequence completes sends one [text]
    message for every display unit, in upstream order and without losing
    any text, and then one [done]; one whose upstream sequence raises ends
    with an [error] instead, never with both.  Every invocation that comes
    to its end has run this way, and accepts nothing afterwards.  Upstream
    text "hi" emitted as "h" then "i" is relayed as text h, text i, done. *)
Theorem relay_emits_units_in_order_then_done (ws : conn) :
  (forall ms, exists acts,
      feed (AwaitNext ws) (script ms Completes) = Some (acts, Settled Returned)
      /\ sent_to ws acts = (Text <$> stream_units ms) ++ [Done]
      /\ concat (stream_units ms) = concat (message_text <$> ms))
  /\ (forall ms, exists acts,
      feed (AwaitNext ws) (script ms Raises) = Some (acts, Settled Returned)
      /\ sent_to ws acts =
         (Text <$> stream_units ms) ++ [Error (lit "Failed to process query")])
  /\ (forall rs acts c,
      feed (AwaitNext ws) rs = Some (acts, Settled c) ->
      exists ms e,
        rs = script ms e /\ c = Returned
        /\ sent_to ws acts = (Text <$> stream_units ms) ++ [final e])
  /\ (forall c r, resume (Settled c) r = None)
  /\ (exists acts,
      feed (AwaitNext ws)
           (script [assistant_message [lit "h"]; assistant_message [lit "i"]] Completes)
      = Some (acts, Settled Returned)
      /\ sent_to ws acts = [Text (lit "h"); Text (lit "i"); Done]).
Proof.
  assert (Hsent : forall ms e,
             sent_to ws (transcript ws ms ++ [ws_send ws (final e)]) =
             (Text <$> stream_units ms) ++ [final e]).
  { intros ms e. rewrite sent_to_app, sent_to_transcript. cbn.
    now rewrite bool_decide_eq_true_2. }
  repeat split.
  - intros ms. eexists. split; [apply feed_script|]. split;
      [apply (Hsent ms Completes) | apply stream_units_concat].
  - intros ms. eexists. split; [apply feed_script | apply (Hsent ms Raises)].
  - intros rs acts c Hfeed.
    destruct (feed_complete_script ws rs (AwaitNext ws) acts c
                ltac:(cbn; now apply bool_decide_eq_true_2) Hfeed) as (ms & e & Hrs).
    cbn [ticks_needed repeat app] in Hrs. subst rs.
    rewrite feed_script in Hfeed. injection Hfeed as <- <-.
    exists ms, e. repeat split. apply Hsent.
  - eexists. split; [apply feed_script|].
    apply (Hsent [assistant_message [lit "h"]; assistant_message [lit "i"]] Completes).
Qed.

Lemma relay_emits_units_in_order_then_done_witness :
  feed (AwaitNext 1)
       [Yield (init_message (lit "s1")); Yield (assistant_message [lit "hi"]);
        Tick; Tick; Exhausted] =
  Some ([sessionIds_set 1 (lit "s1"); ws_send 1 (Text (lit "h"));
         ws_send 1 (Text (lit "i")); ws_send 1 Done], Settled Returned)
  /\ exists ms e,
       [Yield (init_message (lit "s1")); Yield (assistant_message [lit "hi"]);
        Tick; Tick; Exhausted] = script ms e
       /\ Returned = Returned
       /\ sent_to 1 [sessionIds_set 1 (lit "s1"); ws_send 1 (Text (lit "h"));
                     ws_send 1 (Text (lit "i")); ws_send 1 Done] =
          (Text <$> stream_units ms) ++ [final e].
Proof.
  split; [reflexivity|].
  apply (proj1 (proj2 (proj2 (relay_emits_units_in_order_then_done 1)))).
  reflexivity.
Defined.

(** ** The synchronous part of [onMessage] *)

Lemma onMessage_credential env s ws data token :
  member data (lit "token") = Some (Some token) ->
  truthy token = true ->
  onMessage env s ws (Value data) = ([call_verifyToken ws token], AwaitVerify ws).
Proof. intros Hm Ht. unfold onMessage. now rewrite Hm, Ht. Qed.

Lemma onMessage_no_credential env s ws data :
  no_credential data ->
  onMessage env s ws (Value data) = handle_prompt env s ws data.
Proof.
  unfold no_credential, onMessage. intros H.
  destruct (member data (lit "token")) as [[token|]|]; [now rewrite H | reflexivity | easy].
Qed.

Lemma feed_verify ws rs acts t :
  feed (AwaitVerify ws) rs = Some (acts, t) ->
  (rs = [] /\ acts = [] /\ t = AwaitVerify ws)
  \/ (exists result,
        rs = [Resolved result]
        /\ acts = [tokenVerified_set ws true; ws_send ws (TokenVerified true result)]
        /\ t = Settled Returned)
  \/ (rs = [Rejected]
      /\ acts = [ws_send ws (Error (lit "Token verification failed"))]
      /\ t = Settled Returned).
Proof.
  destruct rs as [|r rs]; cbn [feed]; intros H.
  - injection H as <- <-. now left.
  - destruct r; try discriminate; cbn [resume] in H;
      destruct (feed (Settled Returned) rs) as [[a2 t2]|] eqn:Hf; try discriminate;
      injection H as <- <-; pose proof (feed_settled _ _ _ _ Hf) as ->;
      injection Hf as <- <-; right; [left; eexists | right]; repeat split.
Qed.

Lemma run_credential env sys ws data token r acts t' :
  member data (lit "token") = Some (Some token) ->
  truthy token = true ->
  resume (AwaitVerify ws) r = Some (acts, t') ->
  run env sys [Message ws (Value data); Resume (length (pool sys)) r] =
  Some (commit sys (call_verifyToken ws token :: acts) (pool sys ++ [t'])).
Proof.
  intros Hm Ht Hr. cbn [run]. unfold exec at 1. cbn [turn].
  rewrite (onMessage_credential env _ ws data token Hm Ht).
  unfold exec, turn. cbn [pool commit].
  rewrite (list_lookup_middle (pool sys) [] (AwaitVerify ws) _ eq_refl), Hr.
  rewrite commit_commit. cbn [pool commit].
  rewrite insert_app_r_alt by lia. now rewrite Nat.sub_diag.
Qed.

(** C10.  A frame that is not JSON is dropped: the invocation returns at
    once, nothing is sent, neither store changes, and neither the token
    verifier nor the agent is called; the invocation is over and accepts
    nothing later. *)
Theorem unparseable_frame_is_ignored (env : Env) (sys : Sys) (ws : conn) :
  onMessage env (server sys) ws SyntaxError = ([], Settled Returned)
  /\ (exists sys',
        exec env sys (Message ws SyntaxError) = Some sys'
        /\ server sys' = server sys
        /\ trace sys' = trace sys
        /\ pool sys' = pool sys ++ [Settled Returned])
  /\ (forall r, resume (Settled Returned) r = None).
Proof.
  split; [reflexivity|]. split; [|reflexivity].
  eexists. split; [reflexivity|]. cbn. now rewrite app_nil_r.
Qed.

(** C8, as the claim has it, fails: a frame whose [token] is the empty
    string is taken for a prompt frame, and its prompt reaches the agent. *)
Lemma empty_token_frame_is_forwarded :
  exists sys sys',
    run env_ok boot signed_in = Some sys
    /\ exec env_ok sys (Message 1 empty_token_frame) = Some sys'
    /\ trace sys' = trace sys ++ [call_query 1 (lit "hi") None]
    /\ verifications_on 1 (trace sys') = verifications_on 1 (trace sys).
Proof. do 2 eexists. repeat split. Qed.

(** C7, as the claim has it, fails: when verification fails the client is
    sent an [error] message, and no [tokenVerified] message at all. *)
Lemma rejected_token_is_answered_with_error :
  exists sys',
    run env_ok boot [Open 1; Message 1 (credential_frame (lit "bad")); Resume 0 Rejected]
    = Some sys'
    /\ sent_to 1 (trace sys') = [Ready; Error (lit "Token verification failed")].
Proof. eexists. split; reflexivity. Qed.

(** C6, as the claim has it, fails: an empty prompt and a prompt that is
    not text are dropped without any message to the client. *)
Lemma empty_prompt_is_dropped_silently :
  exists sys sys1 sys2,
    run env_ok boot signed_in = Some sys
    /\ exec env_ok sys (Message 1 (prompt_frame [])) = Some sys1
    /\ trace sys1 = trace sys
    /\ exec env_ok sys (Message 1 (Value (JObj [(lit "prompt", JBool true)]))) = Some sys2
    /\ trace sys2 = trace sys.
Proof. do 3 eexists. repeat split. Qed.

(** C6, amended.  On an authenticated connection a prompt frame whose
    prompt is empty, is not text, or has more than 100000 code units
    starts no invocation of the agent and changes neither store; the
    oversized prompt is answered with an [error] message, the empty and the
    non-text prompt with nothing. *)
Theorem invalid_prompt_starts_no_invocation
    (env : Env) (s : Server) (ws : conn) (data : json) (p : json) :
  tokenVerified s !! ws = Some true ->
  no_credential data ->
  opt_member data (lit "prompt") = Some p ->
  p = JStr [] \/ is_text p = false
  \/ (exists text, p = JStr text /\ (100000 < Z.of_nat (length text))%Z) ->
  exists acts,
    onMessage env s ws (Value data) = (acts, Settled Returned)
    /\ perform_all s acts = s
    /\ (forall w, queries_on w acts = [])
    /\ (p = JStr [] \/ is_text p = false -> acts = [])
    /\ (forall text, p = JStr text -> (100000 < Z.of_nat (length text))%Z ->
        acts = [ws_send ws (Error (lit "Prompt too long. Maximum 100000 characters"))]).
Proof.
  intros Hv Hnc Hp Hbad. rewrite (onMessage_no_credential env s ws data Hnc).
  unfold handle_prompt. cbv zeta. rewrite Hv, Hp. cbn [from_option id negb].
  destruct Hbad as [-> | [Hnt | (text & -> & Hlong)]].
  - exists []. repeat split; try reflexivity. intros text [= <-]. cbn. lia.
  - exists []. destruct p; try discriminate Hnt; cbn [truthy];
      repeat match goal with |- context [negb ?b] => destruct b; cbn [negb] end;
      repeat split; try reflexivity; intros text [=].
  - cbn [truthy]. destruct text as [|u text]; [cbn in Hlong; lia|]. cbn [nonempty negb].
    destruct (Z.ltb_spec 100000 (Z.of_nat (length (u :: text)))); [|lia].
    eexists. repeat split. intros [[=] | [=]].
Qed.

Lemma invalid_prompt_starts_no_invocation_witness :
  tokenVerified (perform_all (server boot) [tokenVerified_set 1 true]) !! 1 = Some true
  /\ no_credential (JObj [(lit "prompt", JStr long_prompt)])
  /\ opt_member (JObj [(lit "prompt", JStr long_prompt)]) (lit "prompt")
     = Some (JStr long_prompt)
  /\ (100000 < Z.of_nat (length long_prompt))%Z
  /\ exists acts,
       onMessage env_ok (perform_all (server boot) [tokenVerified_set 1 true]) 1
         (Value (JObj [(lit "prompt", JStr long_prompt)])) = (acts, Settled Returned)
       /\ acts = [ws_send 1 (Error (lit "Prompt too long. Maximum 100000 characters"))].
Proof.
  assert (Hlong : (100000 < Z.of_nat (length long_prompt))%Z)
    by (vm_compute; reflexivity).
  split; [reflexivity|]. split; [exact I|]. split; [reflexivity|].
  split; [exact Hlong|].
  destruct (invalid_prompt_starts_no_invocation env_ok
              (perform_all (server boot) [tokenVerified_set 1 true]) 1
              (JObj [(lit "prompt", JStr long_prompt)]) (JStr long_prompt)
              eq_refl I eq_refl
              (or_intror (or_intror (ex_intro _ long_prompt (conj eq_refl Hlong)))))
    as (acts & Hrun & _ & _ & _ & Herr).
  exists acts. split; [exact Hrun | exact (Herr long_prompt eq_refl Hlong)].
Defined.

(** ** What one turn of the event loop can do *)

(** The invocation is over after its synchronous part, having sent nothing
    ([silent]) or one [error] ([complaining]). *)
Ltac settled how :=
  intros [= <- <-]; right; right; eexists; split; [reflexivity | how].
Ltac silent := settled ltac:(now left).
Ltac complaining := settled ltac:(right; eexists; reflexivity).

Lemma handle_prompt_cases env s ws data acts t :
  handle_prompt env s ws data = (acts, t) ->
  (exists prompt, acts = [call_query ws prompt (resume_option (sessionIds s !! ws))]
                  /\ t = AwaitNext ws /\ tokenVerified s !! ws = Some true)
  \/ (exists token, acts = [call_verifyToken ws token] /\ t = AwaitVerify ws)
  \/ (exists c, t = Settled c /\ (acts = [] \/ exists msg, acts = [ws_send ws (Error msg)])).
Proof.
  unfold handle_prompt. cbv zeta.
  destruct (tokenVerified s !! ws) as [[|]|]; cbn [from_option id negb];
    try complaining.
  destruct (opt_member data (lit "prompt")) as [p|]; [|silent].
  destruct (negb (truthy p)); [silent|].
  destruct p; try silent.
  destruct (_ <? _)%Z; [complaining|].
  destruct (_ && _); [complaining|].
  intros [= <- <-]. left. eexists. repeat split.
Qed.

Lemma onMessage_cases env s ws d acts t :
  onMessage env s ws d = (acts, t) ->
  (exists prompt, acts = [call_query ws prompt (resume_option (sessionIds s !! ws))]
                  /\ t = AwaitNext ws /\ tokenVerified s !! ws = Some true)
  \/ (exists token, acts = [call_verifyToken ws token] /\ t = AwaitVerify ws)
  \/ (exists c, t = Settled c /\ (acts = [] \/ exists msg, acts = [ws_send ws (Error msg)])).
Proof.
  unfold onMessage. destruct d as [|data]; [silent|].
  destruct (member data (lit "token")) as [[token|]|];
    [| apply handle_prompt_cases | silent].
  destruct (truthy token); [|apply handle_prompt_cases].
  intros [= <- <-]. right; left. eexists. split; reflexivity.
Qed.

Lemma stream_blocks_actions ws blocks acts t :
  stream_blocks ws blocks = (acts, t) -> Forall (relay_action ws) acts.
Proof.
  revert acts t. induction blocks as [|b rest IH]; intros acts t; cbn [stream_blocks].
  - intros [= <- <-]. constructor.
  - destruct (bool_decide _); [|apply IH].
    destruct (js_chars _); [apply IH|].
    intros [= <- <-]. repeat constructor.
Qed.

Lemma capture_session_actions ws m : Forall (relay_action ws) (capture_session ws m).
Proof.
  rewrite capture_session_init_id. destruct (init_id m); repeat constructor.
Qed.

Lemma resume_cases t r acts t' :
  resume t r = Some (acts, t') ->
  (exists w result,
      t = AwaitVerify w /\ t' = Settled Returned
      /\ acts = [tokenVerified_set w true; ws_send w (TokenVerified true result)])
  \/ (exists w,
      t = AwaitVerify w /\ t' = Settled Returned
      /\ acts = [ws_send w (Error (lit "Token verification failed"))])
  \/ (exists w,
      streaming_on w t = true /\ Forall (relay_action w) acts
      /\ (streaming_on w t' = true \/ t' = Settled Returned)).
Proof.
  destruct t as [w|w|w chars blocks|c], r; try discriminate; cbn [resume];
    intros E; apply (inj Some) in E; try (injection E as <- <-).
  - left. now exists w, result.
  - right; left. now exists w.
  - right; right. exists w. split; [cbn; now apply bool_decide_eq_true_2|].
    unfold on_sdk_message in E.
    destruct (bool_decide (msg_type m = lit "assistant")).
    + destruct (msg_content m) as [content|].
      * destruct (stream_blocks w content) as [sent t0] eqn:E0.
        injection E as <- <-. split.
        -- apply Forall_app. split;
             [apply capture_session_actions | eapply stream_blocks_actions, E0].
        -- left. eapply stream_blocks_pending, E0.
      * injection E as <- <-. split; [apply capture_session_actions|].
        left. cbn. now apply bool_decide_eq_true_2.
    + injection E as <- <-. split; [apply capture_session_actions|].
      left. cbn. now apply bool_decide_eq_true_2.
  - right; right. exists w. split; [cbn; now apply bool_decide_eq_true_2|].
    split; [repeat constructor | now right].
  - right; right. exists w. split; [cbn; now apply bool_decide_eq_true_2|].
    split; [repeat constructor | now right].
  - right; right. exists w. split; [cbn; now apply bool_decide_eq_true_2|].
    destruct chars as [|ch chars]; cbn [after_pace] in E.
    + split; [eapply stream_blocks_actions, E | left; eapply stream_blocks_pending, E].
    + injection E as <- <-. split; [repeat constructor|].
      left. cbn. now apply bool_decide_eq_true_2.
Qed.

Lemma perform_all_relay_action s ws acts :
  Forall (relay_action ws) acts ->
  tokenVerified (perform_all s acts) = tokenVerified s.
Proof.
  intros H. revert s. induction H as [|a acts Ha _ IH]; intros s; [reflexivity|].
  cbn [perform_all fold_left]. change (fold_left perform acts ?x) with (perform_all x acts).
  rewrite IH. destruct a as [| | | |w []| |]; try contradiction; reflexivity.
Qed.

Lemma relay_action_needs_auth w ws a : relay_action w a -> needs_auth ws a -> w = ws.
Proof.
  destruct a as [| | | |w' []| |]; cbn; try contradiction; congruence.
Qed.

Lemma streaming_on_same w ws t :
  streaming_on w t = true -> streaming_on ws t = true -> w = ws.
Proof.
  destruct t; cbn; try discriminate;
    intros H1%bool_decide_eq_true_1 H2%bool_decide_eq_true_1; congruence.
Qed.

(** How a turn changes the verified flag of a connection. *)
Lemma turn_flag env sys l acts p ws :
  turn env sys l = Some (acts, p) ->
  let flag' := tokenVerified (perform_all (server sys) acts) !! ws in
  (l = Open ws /\ flag' = Some false)
  \/ (l = Close ws /\ flag' = None)
  \/ (flag' = Some true
      /\ exists result, ws_send ws (TokenVerified true result) ∈ acts)
  \/ flag' = tokenVerified (server sys) !! ws.
Proof.
  destruct l as [w|w d|i r|w]; cbn [turn].
  - intros [= <- <-]. cbn. destruct (decide (w = ws)) as [->|Hne].
    + left. split; [reflexivity | apply lookup_insert_eq].
    + do 3 right. now apply lookup_insert_ne.
  - destruct (onMessage env (server sys) w d) as [a t] eqn:E. intros [= <- <-].
    do 3 right.
    destruct (onMessage_cases _ _ _ _ _ _ E)
      as [(? & -> & _) | [(? & -> & _) | (? & _ & [-> | (? & ->)])]]; reflexivity.
  - destruct (pool sys !! i) as [t|]; [|discriminate].
    destruct (resume t r) as [[a t']|] eqn:E; [|discriminate]. intros [= <- <-].
    destruct (resume_cases _ _ _ _ E)
      as [(w & result & _ & _ & ->) | [(w & _ & _ & ->) | (w & _ & Hrel & _)]].
    + cbn. destruct (decide (w = ws)) as [->|Hne].
      * right; right; left. split; [apply lookup_insert_eq|].
        exists result. apply elem_of_cons. right. apply elem_of_cons. now left.
      * do 3 right. now apply lookup_insert_ne.
    + do 3 right. reflexivity.
    + do 3 right. cbv zeta. now rewrite (perform_all_relay_action _ w).
  - intros [= <- <-]. cbn. destruct (decide (w = ws)) as [->|Hne].
    + right; left. split; [reflexivity | apply lookup_delete_eq].
    + do 3 right. now apply lookup_delete_ne.
Qed.

(** An invocation that holds an agent stream after a turn held it before,
    or was started on a connection marked verified. *)
Lemma turn_pool env sys l acts p ws j t :
  turn env sys l = Some (acts, p) ->
  p !! j = Some t -> streaming_on ws t = true -> entitled ws sys.
Proof.
  destruct l as [w|w d|i r|w]; cbn [turn].
  - intros [= <- <-] Hj Hs. right. eauto.
  - destruct (onMessage env (server sys) w d) as [a t0] eqn:E. intros [= <- <-] Hj Hs.
    apply lookup_snoc_Some in Hj as [[_ Hj] | [_ <-]]; [right; eauto|].
    destruct (onMessage_cases _ _ _ _ _ _ E)
      as [(? & _ & -> & Hv) | [(? & _ & ->) | (? & -> & _)]]; try discriminate.
    left. cbn in Hs. apply bool_decide_eq_true_1 in Hs. now subst.
  - destruct (pool sys !! i) as [t0|] eqn:Hi; [|discriminate].
    destruct (resume t0 r) as [[a t']|] eqn:E; [|discriminate]. intros [= <- <-] Hj Hs.
    apply list_lookup_insert_Some in Hj as [(<- & <- & _) | (_ & Hj)]; [|right; eauto].
    destruct (resume_cases _ _ _ _ E)
      as [(w & ? & _ & -> & _) | [(w & _ & -> & _) | (w & Hs0 & _ & [Hs' | ->])]];
      try discriminate.
    rewrite (streaming_on_same _ _ _ Hs' Hs) in Hs0. right. eauto.
  - intros [= <- <-] Hj Hs. right. eauto.
Qed.

(** A reserved action is performed only for an entitled connection, and
    the agent is called only for a connection marked verified. *)
Lemma turn_needs_auth env sys l acts p ws a :
  turn env sys l = Some (acts, p) ->
  a ∈ acts -> needs_auth ws a ->
  entitled ws sys
  /\ (forall prompt r, a = call_query ws prompt r ->
      tokenVerified (server sys) !! ws = Some true).
Proof.
  destruct l as [w|w d|i r|w]; cbn [turn].
  - intros [= <- <-] Ha Hn. unfold onOpen in Ha. cbn in Ha.
    repeat (apply elem_of_cons in Ha as [-> | Ha]; [contradiction|]).
    now apply elem_of_nil in Ha.
  - destruct (onMessage env (server sys) w d) as [acts0 t0] eqn:E.
    intros [= <- <-] Ha Hn.
    destruct (onMessage_cases _ _ _ _ _ _ E)
      as [(? & -> & _ & Hv) | [(? & -> & _) | (? & _ & [-> | (? & ->)])]];
      try (apply list_elem_of_singleton in Ha as ->; try contradiction);
      try (now apply elem_of_nil in Ha).
    cbn in Hn. subst w. split; [now left | intros; assumption].
  - destruct (pool sys !! i) as [t0|] eqn:Hi; [|discriminate].
    destruct (resume t0 r) as [[acts0 t']|] eqn:E; [|discriminate].
    intros [= <- <-] Ha Hn.
    destruct (resume_cases _ _ _ _ E)
      as [(w & ? & _ & _ & ->) | [(w & _ & _ & ->) | (w & Hs0 & Hrel & _)]].
    + repeat (apply elem_of_cons in Ha as [-> | Ha]; [contradiction|]).
      now apply elem_of_nil in Ha.
    + apply list_elem_of_singleton in Ha as ->. contradiction.
    + rewrite Forall_forall in Hrel. specialize (Hrel _ Ha).
      pose proof (relay_action_needs_auth _ _ _ Hrel Hn) as ->. split.
      * right. eauto.
      * intros prompt r0 ->. contradiction.
  - intros [= <- <-] Ha Hn. unfold onClose in Ha.
    repeat (apply elem_of_cons in Ha as [-> | Ha]; [contradiction|]).
    now apply elem_of_nil in Ha.
Qed.

Lemma announced_app ws tr acts : announced ws tr -> announced ws (tr ++ acts).
Proof. intros (i & result & H). exists i, result. now apply lookup_app_l_Some. Qed.

Lemma session_inv_boot : session_inv boot.
Proof.
  split.
  - intros ws [H | (i & t & H & _)]; [|discriminate].
    cbn in H. now rewrite lookup_empty in H.
  - intros ws j a H. discriminate.
Qed.

Lemma session_inv_exec env sys l sys' :
  session_inv sys -> exec env sys l = Some sys' -> session_inv sys'.
Proof.
  intros [Hent Hgate]. unfold exec.
  destruct (turn env sys l) as [[acts p]|] eqn:E; [|discriminate].
  intros [= <-]. split.
  - intros ws [Hflag | (j & t & Hj & Hs)]; cbn [commit server trace pool] in *.
    + destruct (turn_flag env sys l acts p ws E)
        as [(_ & H) | [(_ & H) | [(_ & result & H) | H]]];
        cbv zeta in H; try congruence.
      * apply list_elem_of_lookup in H as (k & Hk).
        exists (length (trace sys) + k), result.
        rewrite lookup_app_r by lia. now replace (_ + k - _) with k by lia.
      * apply announced_app, Hent. left. congruence.
    + apply announced_app, Hent. eapply turn_pool; eassumption.
  - intros ws j a Hj Hn. cbn [commit trace] in Hj.
    apply lookup_app_Some in Hj as [Hj | [Hlen Hj]].
    + destruct (Hgate ws j a Hj Hn) as (i & result & Hlt & Hi).
      exists i, result. split; [assumption | now apply lookup_app_l_Some].
    + apply list_elem_of_lookup_2 in Hj.
      destruct (turn_needs_auth env sys l acts p ws a E Hj Hn) as [He _].
      destruct (Hent ws He) as (i & result & Hi).
      exists i, result. split; [|now apply lookup_app_l_Some].
      apply lookup_lt_Some in Hi. lia.
Qed.

Lemma reachable_session_inv env sys : reachable env sys -> session_inv sys.
Proof.
  induction 1 as [|sys l sys' _ IH Hexec];
    [apply session_inv_boot | eapply session_inv_exec; eassumption].
Qed.

Lemma run_reachable env ls :
  forall sys sys', reachable env sys -> run env sys ls = Some sys' -> reachable env sys'.
Proof.
  induction ls as [|l ls IH]; intros sys sys' Hr; cbn [run].
  - now intros [= <-].
  - destruct (exec env sys l) as [sys1|] eqn:E; [|discriminate].
    apply IH. eapply reachable_exec; eassumption.
Qed.

(** C1.  In every reachable state and for every connection, each [text]
    and [done] message and each call to [query] comes later in the trace
    than a [tokenVerified] message with success true on that connection;
    and a turn of the event loop calls [query] for a connection only when
    that connection's [tokenVerified] entry is true. *)
Theorem relay_and_agent_are_gated (env : Env) (sys : Sys) :
  reachable env sys ->
  (forall ws, gated ws (trace sys))
  /\ (forall l acts p ws prompt r,
        turn env sys l = Some (acts, p) ->
        call_query ws prompt r ∈ acts ->
        tokenVerified (server sys) !! ws = Some true).
Proof.
  intros Hr. split; [apply (reachable_session_inv env sys Hr)|].
  intros l acts p ws prompt r Hturn Hin.
  now apply (turn_needs_auth env sys l acts p ws _ Hturn Hin eq_refl) with prompt r.
Qed.

Lemma relay_and_agent_are_gated_witness :
  exists sys,
    run env_ok boot hi_labels = Some sys
    /\ sent_to 1 (trace sys) =
       [Ready; TokenVerified true subject; Text (lit "h"); Text (lit "i"); Done]
    /\ forall ws, gated ws (trace sys).
Proof.
  eexists. split; [reflexivity|]. split; [reflexivity|].
  apply (relay_and_agent_are_gated env_ok).
  apply (run_reachable env_ok hi_labels boot); [constructor | reflexivity].
Defined.

(** ** The verified flag *)

Lemma exec_keeps_flag env sys l sys' ws :
  exec env sys l = Some sys' ->
  l <> Open ws -> l <> Close ws ->
  tokenVerified (server sys) !! ws = Some true ->
  tokenVerified (server sys') !! ws = Some true.
Proof.
  unfold exec. destruct (turn env sys l) as [[acts p]|] eqn:E; [|discriminate].
  intros [= <-] Hopen Hclose Hflag. cbn [commit server].
  destruct (turn_flag env sys l acts p ws E)
    as [(H & _) | [(H & _) | [(H & _) | H]]]; cbv zeta in *; congruence.
Qed.

Lemma run_keeps_flag env ws ls :
  forall sys sys',
    run env sys ls = Some sys' ->
    Forall (fun l => l <> Open ws /\ l <> Close ws) ls ->
    tokenVerified (server sys) !! ws = Some true ->
    tokenVerified (server sys') !! ws = Some true.
Proof.
  induction ls as [|l ls IH]; intros sys sys'; cbn [run].
  - now intros [= <-].
  - destruct (exec env sys l) as [sys1|] eqn:E; [|discriminate].
    intros Hrun Hall Hflag. apply Forall_cons in Hall as [[Ho Hc] Hall].
    eapply IH; [eassumption | assumption |].
    eapply exec_keeps_flag; eassumption.
Qed.

(** C9.  On a connection whose [tokenVerified] entry is true, a further
    credential frame, on this or on any other connection and whether
    verification succeeds or fails, leaves the entry true and leaves the
    stored session identifiers as they are; and whatever the event loop
    does between the opening and the closing of the connection, the entry
    stays true. *)
Theorem verified_flag_is_never_revoked (env : Env) (sys : Sys) (ws : conn) :
  tokenVerified (server sys) !! ws = Some true ->
  (forall w data token r,
      member data (lit "token") = Some (Some token) ->
      truthy token = true ->
      r = Rejected \/ (exists result, r = Resolved result) ->
      exists sys',
        run env sys [Message w (Value data); Resume (length (pool sys)) r] = Some sys'
        /\ tokenVerified (server sys') !! ws = Some true
        /\ sessionIds (server sys') = sessionIds (server sys))
  /\ (forall ls sys',
      run env sys ls = Some sys' ->
      Forall (fun l => l <> Open ws /\ l <> Close ws) ls ->
      tokenVerified (server sys') !! ws = Some true).
Proof.
  intros Hflag. split.
  - intros w data token r Hm Ht [-> | (result & ->)]; eexists;
      (split; [now apply (run_credential env sys w data token)|]).
    + split; [exact Hflag | reflexivity].
    + split; [|reflexivity]. cbn.
      destruct (decide (w = ws)) as [->|Hne];
        [apply lookup_insert_eq | now rewrite lookup_insert_ne].
  - intros ls sys' Hrun Hall. eapply run_keeps_flag; eassumption.
Qed.

Lemma verified_flag_is_never_revoked_witness :
  exists sys,
    run env_ok boot hi_labels = Some sys
    /\ tokenVerified (server sys) !! 1 = Some true
    /\ sessionIds (server sys) !! 1 = Some (lit "s1")
    /\ exists sys',
         run env_ok sys [Message 1 (credential_frame (lit "jwt"));
                         Resume (length (pool sys)) Rejected] = Some sys'
         /\ tokenVerified (server sys') !! 1 = Some true
         /\ sessionIds (server sys') = sessionIds (server sys).
Proof.
  eexists. split; [reflexivity|]. split; [reflexivity|]. split; [reflexivity|].
  refine (proj1 (verified_flag_is_never_revoked env_ok _ 1 _) 1
            (JObj [(lit "token", JStr (lit "jwt"))]) (JStr (lit "jwt")) Rejected
            eq_refl eq_refl (or_introl eq_refl)).
  reflexivity.
Defined.

(** ** Invocations in flight *)

Lemma in_flight_snoc ws p t :
  in_flight ws (p ++ [t]) = in_flight ws p + (if streaming_on ws t then 1 else 0).
Proof.
  unfold in_flight. rewrite List.filter_app, length_app. cbn.
  destruct (streaming_on ws t); reflexivity.
Qed.

Lemma in_flight_positive ws p i t :
  p !! i = Some t -> streaming_on ws t = true -> 1 <= in_flight ws p.
Proof.
  intros Hi Hs. unfold in_flight.
  assert (Hin : In t (List.filter (streaming_on ws) p)).
  { apply List.filter_In. split; [|assumption].
    apply list_elem_of_In. eapply list_elem_of_lookup_2, Hi. }
  destruct (List.filter (streaming_on ws) p); [contradiction | cbn; lia].
Qed.

(** C2, as the claim has it, fails: a second prompt that arrives while the
    first is being served is not rejected; it starts a second invocation of
    the agent, and two are in flight. *)
Lemma second_prompt_starts_second_invocation :
  exists sys,
    run env_ok boot two_prompts = Some sys
    /\ in_flight 1 (pool sys) = 2
    /\ queries_on 1 (trace sys) = [(lit "a", None); (lit "b", None)]
    /\ sent_to 1 (trace sys) = [Ready; TokenVerified true subject].
Proof. eexists. repeat split. Qed.

(** C2, amended.  The handler keeps no record of invocations in flight.
    A valid prompt that arrives on an authenticated connection while an
    earlier invocation on it still holds its agent stream is not rejected:
    it calls the agent once more, with the identifier stored at that
    moment, and sends nothing.  The earlier invocation is not interrupted:
    it is left as it was and goes on through whatever its stream brings. *)
Theorem prompt_while_streaming_starts_another
    (env : Env) (sys : Sys) (ws : conn) (i : nat) (t : Task) (prompt : jsstr) :
  pool sys !! i = Some t ->
  streaming_on ws t = true ->
  tokenVerified (server sys) !! ws = Some true ->
  acceptable prompt ->
  configured env ->
  exists sys',
    exec env sys (Message ws (prompt_frame prompt)) = Some sys'
    /\ server sys' = server sys
    /\ trace sys' =
       trace sys ++ [call_query ws prompt (resume_option (sessionIds (server sys) !! ws))]
    /\ pool sys' = pool sys ++ [AwaitNext ws]
    /\ in_flight ws (pool sys') = S (in_flight ws (pool sys))
    /\ 2 <= in_flight ws (pool sys')
    /\ pool sys' !! i = Some t
    /\ (forall rs acts t',
          feed t rs = Some (acts, t') ->
          run env sys' (Resume i <$> rs)
          = Some (commit sys' acts (<[i := t']> (pool sys')))).
Proof.
  intros Hi Hs Hv Hp Hcfg. eexists. split.
  { unfold exec. cbn [turn]. now rewrite (onMessage_prompt env _ ws prompt Hv Hp Hcfg). }
  cbn [commit server trace pool].
  assert (Hi' : (pool sys ++ [AwaitNext ws]) !! i = Some t)
    by now apply lookup_app_l_Some.
  assert (Hn : in_flight ws (pool sys ++ [AwaitNext ws]) = S (in_flight ws (pool sys))).
  { rewrite in_flight_snoc. cbn. rewrite bool_decide_eq_true_2 by reflexivity. lia. }
  repeat split; try assumption.
  - rewrite Hn. pose proof (in_flight_positive ws _ i t Hi Hs). lia.
  - intros rs acts t' Hfeed.
    exact (run_resume_feed env i rs (commit sys _ _) t acts t' Hi' Hfeed).
Qed.

Lemma prompt_while_streaming_starts_another_witness :
  exists sys,
    run env_ok boot (signed_in ++ [Message 1 (prompt_frame (lit "a"))]) = Some sys
    /\ pool sys !! 1 = Some (AwaitNext 1)
    /\ exists sys',
         exec env_ok sys (Message 1 (prompt_frame (lit "b"))) = Some sys'
         /\ in_flight 1 (pool sys') = S (in_flight 1 (pool sys)).
Proof.
  eexists. split; [reflexivity|]. split; [reflexivity|].
  assert (Hacc : acceptable (lit "b"))
    by (split; [discriminate | vm_compute; discriminate]).
  match goal with
  | |- exists sys', exec _ ?s _ = _ /\ _ =>
      destruct (prompt_while_streaming_starts_another env_ok s 1 1 (AwaitNext 1)
                  (lit "b") eq_refl eq_refl eq_refl Hacc eq_refl)
        as (sys' & Hexec & _ & _ & _ & Hn & _)
  end.
  exists sys'. split; [exact Hexec | exact Hn].
Defined.

(** ** Turns served one after the other *)

Lemma captured_nonempty ms id : captured ms = Some id -> nonempty id = true.
Proof.
  induction ms as [|m ms IH]; [discriminate|]. cbn [captured].
  destruct (captured ms) as [id'|]; [intros [= <-]; now apply IH|].
  unfold init_id. destruct (_ && _); [|discriminate].
  destruct (msg_session_id m) as [id'|]; [|discriminate].
  destruct (nonempty id') eqn:E; [|discriminate]. now intros [= <-].
Qed.

Lemma perform_all_turn s ws prompt r ms m :
  perform_all s (call_query ws prompt r :: transcript ws ms ++ [ws_send ws m]) =
  {| sessionIds := match captured ms with
                   | Some id => <[ws := id]> (sessionIds s)
                   | None => sessionIds s
                   end;
     tokenVerified := tokenVerified s |}.
Proof.
  change (perform_all s (call_query ws prompt r :: ?l)) with (perform_all s l).
  now rewrite perform_all_app, perform_all_transcript.
Qed.

(** What a turn served alone leaves behind. *)
Lemma serial_turn_result env sys ws prompt ms e :
  tokenVerified (server sys) !! ws = Some true ->
  acceptable prompt ->
  configured env ->
  exists sys',
    serial_turn env sys ws prompt ms e = Some sys'
    /\ trace sys' =
       trace sys ++ call_query ws prompt (resume_option (sessionIds (server sys) !! ws))
                    :: transcript ws ms ++ [ws_send ws (final e)]
    /\ pool sys' = pool sys ++ [Settled Returned]
    /\ tokenVerified (server sys') = tokenVerified (server sys)
    /\ sessionIds (server sys') =
       match captured ms with
       | Some id => <[ws := id]> (sessionIds (server sys))
       | None => sessionIds (server sys)
       end.
Proof.
  intros Hv Hp Hcfg. eexists. split; [now apply serial_turn_spec|].
  cbn [commit trace pool server]. rewrite perform_all_turn. now repeat split.
Qed.

Lemma sent_to_turn ws prompt r ms m :
  sent_to ws (call_query ws prompt r :: transcript ws ms ++ [ws_send ws m]) =
  (Text <$> stream_units ms) ++ [m].
Proof.
  change (sent_to ws (call_query ws prompt r :: ?l)) with (sent_to ws l).
  rewrite sent_to_app, sent_to_transcript. cbn. now rewrite bool_decide_eq_true_2.
Qed.

Lemma queries_on_turn ws prompt r ms m :
  queries_on ws (call_query ws prompt r :: transcript ws ms ++ [ws_send ws m]) =
  [(prompt, r)].
Proof.
  cbn [queries_on omap list_omap]. rewrite bool_decide_eq_true_2 by reflexivity.
  f_equal. change (queries_on ws (transcript ws ms ++ [ws_send ws m]) = []).
  now rewrite queries_on_app, queries_on_transcript.
Qed.

(** C3, as the claim has it, fails: the identifier of an init message is
    stored the moment the message is seen, so a turn whose stream raises
    after it leaves the new identifier behind. *)
Lemma failed_turn_leaves_new_handle :
  exists sys sys',
    run env_ok boot signed_in = Some sys
    /\ serial_turn env_ok sys 1 (lit "q") [init_message (lit "s1")] Raises = Some sys'
    /\ sessionIds (server sys) !! 1 = Some []
    /\ sessionIds (server sys') !! 1 = Some (lit "s1")
    /\ sent_to 1 (trace sys') =
       [Ready; TokenVerified true subject; Error (lit "Failed to process query")].
Proof. do 2 eexists. repeat split. Qed.

Lemma serial_session_queries env ws turns :
  forall sys,
    tokenVerified (server sys) !! ws = Some true ->
    Forall (fun turn => acceptable (fst turn)) turns ->
    configured env ->
    exists sys' acts,
      serial_session env sys ws turns = Some sys'
      /\ trace sys' = trace sys ++ acts
      /\ queries_on ws acts = handles_used (sessionIds (server sys) !! ws) turns
      /\ tokenVerified (server sys') !! ws = Some true.
Proof.
  induction turns as [|[prompt [ms e]] rest IH]; intros sys Hv Hall Hcfg.
  - exists sys, []. cbn. now rewrite app_nil_r.
  - apply Forall_cons in Hall as [Hp Hall]. cbn [fst] in Hp.
    destruct (serial_turn_result env sys ws prompt ms e Hv Hp Hcfg)
      as (sys1 & Hrun & Htr & _ & Hflag & Hids).
    assert (Hv1 : tokenVerified (server sys1) !! ws = Some true) by now rewrite Hflag.
    destruct (IH sys1 Hv1 Hall Hcfg) as (sys' & acts & Hrest & Htr' & Hq & Hv').
    exists sys', (call_query ws prompt (resume_option (sessionIds (server sys) !! ws))
                  :: transcript ws ms ++ [ws_send ws (final e)] ++ acts).
    cbn [serial_session]. rewrite Hrun. split; [exact Hrest|]. split; [|split].
    + rewrite Htr', Htr, <- app_assoc. cbn [app]. now rewrite <- app_assoc.
    + rewrite app_assoc.
      change (call_query ?w ?p ?r :: ?l ++ acts) with ((call_query w p r :: l) ++ acts).
      rewrite queries_on_app, queries_on_turn, Hq. cbn [handles_used app].
      do 2 f_equal. rewrite Hids.
      destruct (captured ms); [now rewrite lookup_insert_eq | reflexivity].
    + exact Hv'.
Qed.

Lemma handles_used_length h turns : length (handles_used h turns) = length turns.
Proof.
  revert h. induction turns as [|[prompt [ms e]] rest IH]; intros h; [reflexivity|].
  cbn. now rewrite IH.
Qed.

Lemma handles_used_next k :
  forall h turns prompt ms e prompt' turn',
    turns !! k = Some (prompt, (ms, e)) ->
    turns !! S k = Some (prompt', turn') ->
    exists hk,
      handles_used h turns !! k = Some (prompt, resume_option hk)
      /\ handles_used h turns !! S k =
         Some (prompt', resume_option (match captured ms with
                                       | Some id => Some id
                                       | None => hk
                                       end)).
Proof.
  induction k as [|k IH]; intros h turns prompt ms e prompt' turn' Hk Hk'.
  - destruct turns as [|[p0 [ms0 e0]] [|[p1 [ms1 e1]] rest]]; try discriminate.
    injection Hk as -> -> ->. injection Hk' as -> _. exists h. split; reflexivity.
  - destruct turns as [|[p0 [ms0 e0]] rest]; [discriminate|].
    cbn [handles_used]. apply (IH _ rest prompt ms e prompt' turn' Hk Hk').
Qed.

(** C4.  For prompts served one after the other on an authenticated
    connection, each with a valid prompt: every prompt makes one call to
    [query]; on a connection whose stored identifier is still the empty
    string that [onOpen] put there, the first call has no resume handle;
    and the call for the prompt after a turn whose response carried an
    init message with an identifier resumes that identifier, while after a
    turn without one it resumes what the turn itself resumed. *)
Theorem next_prompt_resumes_captured_session
    (env : Env) (sys : Sys) (ws : conn)
    (turns : list (jsstr * (list SDKMessage * Ending))) :
  configured env ->
  tokenVerified (server sys) !! ws = Some true ->
  Forall (fun turn => acceptable (fst turn)) turns ->
  exists sys' acts,
    serial_session env sys ws turns = Some sys'
    /\ trace sys' = trace sys ++ acts
    /\ queries_on ws acts = handles_used (sessionIds (server sys) !! ws) turns
    /\ length (queries_on ws acts) = length turns
    /\ (forall prompt turn,
          sessionIds (server sys) !! ws = Some (lit "") ->
          turns !! 0 = Some (prompt, turn) ->
          queries_on ws acts !! 0 = Some (prompt, None))
    /\ (forall k prompt ms e prompt' turn' id,
          turns !! k = Some (prompt, (ms, e)) ->
          turns !! S k = Some (prompt', turn') ->
          captured ms = Some id ->
          queries_on ws acts !! S k = Some (prompt', Some id))
    /\ (forall k prompt ms e prompt' turn',
          turns !! k = Some (prompt, (ms, e)) ->
          turns !! S k = Some (prompt', turn') ->
          captured ms = None ->
          exists r, queries_on ws acts !! k = Some (prompt, r)
                    /\ queries_on ws acts !! S k = Some (prompt', r)).
Proof.
  intros Hcfg Hv Hall.
  destruct (serial_session_queries env ws turns sys Hv Hall Hcfg)
    as (sys' & acts & Hrun & Htr & Hq & _).
  exists sys', acts. split; [exact Hrun|]. split; [exact Htr|]. split; [exact Hq|].
  rewrite Hq. split; [apply handles_used_length|]. split; [|split].
  - intros prompt turn Hfresh H0. rewrite Hfresh.
    destruct turns as [|[p0 [ms0 e0]] rest]; [discriminate|].
    injection H0 as -> _. reflexivity.
  - intros k prompt ms e prompt' turn' id Hk Hk' Hcap.
    destruct (handles_used_next k (sessionIds (server sys) !! ws) turns _ _ _ _ _ Hk Hk') as (hk & _ & Hnext).
    rewrite Hnext, Hcap. cbn [resume_option].
    now rewrite (captured_nonempty ms id Hcap).
  - intros k prompt ms e prompt' turn' Hk Hk' Hcap.
    destruct (handles_used_next k (sessionIds (server sys) !! ws) turns _ _ _ _ _ Hk Hk') as (hk & Hthis & Hnext).
    rewrite Hcap in Hnext. now exists (resume_option hk).
Qed.

Lemma next_prompt_resumes_captured_session_witness :
  exists sys sys' acts,
    run env_ok boot signed_in = Some sys
    /\ configured env_ok
    /\ tokenVerified (server sys) !! 1 = Some true
    /\ sessionIds (server sys) !! 1 = Some (lit "")
    /\ serial_session env_ok sys 1
         [(lit "one", ([init_message (lit "s1"); assistant_message [lit "ok"]], Completes));
          (lit "two", ([init_message (lit "s2")], Raises));
          (lit "three", ([assistant_message [lit "ok"]], Completes))] = Some sys'
    /\ trace sys' = trace sys ++ acts
    /\ queries_on 1 acts =
       [(lit "one", None); (lit "two", Some (lit "s1")); (lit "three", Some (lit "s2"))].
Proof.
  assert (Hacc : forall s, s <> [] -> (Z.of_nat (length s) <= 100000)%Z -> acceptable s)
    by (intros s H1 H2; now split).
  eexists.
  match goal with
  | |- exists sys' acts, run _ _ _ = Some ?s /\ _ =>
      assert (Hrun : run env_ok boot signed_in = Some s) by reflexivity;
      destruct (next_prompt_resumes_captured_session env_ok s 1
                  [(lit "one",
                    ([init_message (lit "s1"); assistant_message [lit "ok"]], Completes));
                   (lit "two", ([init_message (lit "s2")], Raises));
                   (lit "three", ([assistant_message [lit "ok"]], Completes))]
                  eq_refl eq_refl)
        as (sys' & acts & Hsession & Htr & Hq & _)
  end.
  { repeat constructor; cbn [fst]; try discriminate; vm_compute; discriminate. }
  exists sys', acts. split; [exact Hrun|]. split; [reflexivity|]. split; [reflexivity|].
  split; [reflexivity|]. split; [exact Hsession|]. split; [exact Htr | exact Hq].
Defined.

(** * The rest of the server *)

(** ** Prefixes and the first occurrence of a pattern *)

Lemma starts_with_app (p s : jsstr) : starts_with p (p ++ s) = true.
Proof.
  induction p as [|a p IH]; [reflexivity|]. cbn.
  now rewrite bool_decide_eq_true_2, IH.
Qed.

Lemma starts_with_split (p s : jsstr) :
  starts_with p s = true -> s = p ++ drop (length p) s.
Proof.
  revert s. induction p as [|a p IH]; intros s; [reflexivity|].
  destruct s as [|b s]; [discriminate|]. cbn.
  intros [Hab Hp]%andb_prop. apply bool_decide_eq_true_1 in Hab. subst b.
  f_equal. now apply IH.
Qed.

Lemma replace_first_unfold (pat s : jsstr) :
  replace_first pat s =
  if starts_with pat s then drop (length pat) s
  else match s with
       | [] => []
       | u :: rest => u :: replace_first pat rest
       end.
Proof. destruct s; reflexivity. Qed.

Lemma replace_first_prefix (pat s : jsstr) : replace_first pat (pat ++ s) = s.
Proof.
  rewrite replace_first_unfold, starts_with_app. apply drop_app_length.
Qed.

(** The pattern is found behind a prefix in which its first code unit does
    not occur. *)
Lemma replace_first_behind (u : N) (pat a b : jsstr) :
  Forall (fun v => v <> u) a ->
  replace_first (u :: pat) (a ++ (u :: pat) ++ b) = a ++ b.
Proof.
  induction 1 as [|v a Hv _ IH].
  - apply (replace_first_prefix (u :: pat)).
  - rewrite replace_first_unfold.
    change ((v :: a) ++ ?l) with (v :: (a ++ l)). cbn [starts_with].
    rewrite bool_decide_eq_false_2 by congruence. cbn [andb]. now rewrite IH.
Qed.

(** ** The values of the string iterator *)

Lemma js_chars_shape_bounded (n : nat) :
  forall s : jsstr, length s <= n ->
    Forall code_point (js_chars s) /\ length (js_chars s) <= length s.
Proof.
  induction n as [|n IH]; intros [|u rest] Hlen; cbn [length] in Hlen;
    try (split; [constructor | cbn; lia]); try lia.
  cbn [js_chars]. destruct (is_high_surrogate u) eqn:Hu.
  - destruct rest as [|v rest'].
    + split; [constructor; [left; eauto | constructor] | cbn; lia].
    + destruct (is_low_surrogate v) eqn:Hv.
      * destruct (IH rest') as [IH1 IH2]; [cbn [length] in Hlen; lia|].
        split; [constructor; [right; eauto | exact IH1] | cbn [length] in *; lia].
      * destruct (IH (v :: rest')) as [IH1 IH2]; [lia|].
        split; [constructor; [left; eauto | exact IH1] | cbn [length] in *; lia].
  - destruct (IH rest) as [IH1 IH2]; [lia|].
    split; [constructor; [left; eauto | exact IH1] | cbn [length] in *; lia].
Qed.

Lemma js_chars_plain (s : jsstr) :
  Forall (fun u => is_high_surrogate u = false) s ->
  js_chars s = (fun u => [u]) <$> s.
Proof.
  induction 1 as [|u s Hu _ IH]; [reflexivity|].
  cbn [js_chars]. rewrite Hu, IH. reflexivity.
Qed.

(** The text collected by the REST endpoint's loop. *)
Lemma append_blocks_concat acc content :
  append_blocks acc content = acc ++ concat (block_text_of <$> content).
Proof.
  unfold append_blocks. revert acc.
  induction content as [|b content IH]; intros acc; cbn [fold_left fmap list_fmap concat].
  - now rewrite app_nil_r.
  - rewrite IH. unfold block_text_of at 2.
    destruct (bool_decide (block_type b = lit "text")); [now rewrite app_assoc | reflexivity].
Qed.

Lemma collect_text_concat ms : collect_text ms = concat (message_text <$> ms).
Proof.
  unfold collect_text.
  enough (H : forall acc,
             fold_left
               (fun acc m =>
                  if bool_decide (msg_type m = lit "assistant") then
                    match msg_content m with
                    | Some content => append_blocks acc content
                    | None => acc
                    end
                  else acc) ms acc = acc ++ concat (message_text <$> ms))
    by apply (H []).
  induction ms as [|m ms IH]; intros acc; cbn [fold_left fmap list_fmap concat].
  - now rewrite app_nil_r.
  - rewrite IH. unfold message_text at 2.
    destruct (bool_decide (msg_type m = lit "assistant")); [|reflexivity].
    destruct (msg_content m) as [content|]; [|reflexivity].
    now rewrite append_blocks_concat, app_assoc.
Qed.

Lemma blocks_units_code_points bs : Forall code_point (blocks_units bs).
Proof.
  induction bs as [|b bs IH]; [constructor|].
  rewrite blocks_units_cons. apply Forall_app. split; [|exact IH].
  unfold block_units. destruct (bool_decide _); [|constructor].
  apply (js_chars_shape_bounded (length (block_text b))). lia.
Qed.

Lemma stream_units_code_points ms : Forall code_point (stream_units ms).
Proof.
  unfold stream_units. induction ms as [|m ms IH]; [constructor|].
  cbn [fmap list_fmap concat]. apply Forall_app. split; [|exact IH].
  unfold display_units. destruct (bool_decide _); [|constructor].
  destruct (msg_content m); [apply blocks_units_code_points | constructor].
Qed.

Lemma code_points_count (units : list jsstr) :
  Forall code_point units -> length units <= length (concat units).
Proof.
  induction 1 as [|c units Hc _ IH]; [reflexivity|].
  cbn [concat length]. rewrite length_app.
  destruct Hc as [(u & ->) | (hi & lo & -> & _)]; cbn; lia.
Qed.

(** ** [checkApiAuth] *)

(** X2.  With no key configured, or an empty one, every request passes.
    With a key configured, a request passes when [x-api-key] is the key,
    or when [x-api-key] is absent or empty and [authorization] is
    "Bearer " followed by the key; it fails when it carries neither
    header, and a non-empty [x-api-key] that is not the key fails whatever
    [authorization] says.  A request that passes has presented the key in
    one of the two ways. *)
Theorem api_key_is_enforced (configuredKey : option jsstr) (h : Headers) :
  (env_set configuredKey = false -> checkApiAuth configuredKey h = true)
  /\ (forall key,
        configuredKey = Some key -> nonempty key = true ->
        (x_api_key h = Some key -> checkApiAuth configuredKey h = true)
        /\ (env_set (x_api_key h) = false ->
            authorization h = Some (lit "Bearer " ++ key) ->
            checkApiAuth configuredKey h = true)
        /\ (env_set (x_api_key h) = false -> authorization h = None ->
            checkApiAuth configuredKey h = false)
        /\ (forall k, x_api_key h = Some k -> nonempty k = true -> k <> key ->
            checkApiAuth configuredKey h = false)
        /\ (checkApiAuth configuredKey h = true ->
            x_api_key h = Some key
            \/ (env_set (x_api_key h) = false
                /\ exists a, authorization h = Some a
                             /\ replace_first (lit "Bearer ") a = key))).
Proof.
  split.
  { intros Hk. unfold checkApiAuth. now rewrite Hk. }
  intros key -> Hkey. unfold checkApiAuth. cbn [env_set]. rewrite Hkey.
  cbn [negb]. cbv zeta. repeat split.
  - intros ->. rewrite Hkey. now apply bool_decide_eq_true_2.
  - intros Hx ->. cbn [fmap option_fmap option_map].
    rewrite replace_first_prefix.
    destruct (x_api_key h) as [k|]; cbn [env_set] in Hx; [rewrite Hx|];
      now apply bool_decide_eq_true_2.
  - intros Hx ->. cbn [fmap option_fmap option_map].
    destruct (x_api_key h) as [k|]; cbn [env_set] in Hx; [rewrite Hx|];
      now apply bool_decide_eq_false_2.
  - intros k -> Hk Hne. rewrite Hk. apply bool_decide_eq_false_2. congruence.
  - intros Hok%bool_decide_eq_true_1.
    destruct (x_api_key h) as [k|] eqn:Hx.
    + destruct (nonempty k) eqn:Hk; [left; congruence|].
      right. split; [exact Hk|].
      destruct (authorization h) as [a|]; [|discriminate].
      exists a. split; [reflexivity | now injection Hok].
    + right. split; [reflexivity|].
      destruct (authorization h) as [a|]; [|discriminate].
      exists a. split; [reflexivity | now injection Hok].
Qed.

Lemma api_key_is_enforced_witness :
  nonempty (lit "k3y") = true
  /\ checkApiAuth (Some (lit "k3y"))
       {| x_api_key := None; authorization := Some (lit "Bearer k3y") |} = true
  /\ checkApiAuth (Some (lit "k3y"))
       {| x_api_key := Some (lit "nope"); authorization := Some (lit "Bearer k3y") |}
     = false.
Proof.
  split; [reflexivity|]. split.
  - exact (proj1 (proj2 (proj2 (api_key_is_enforced (Some (lit "k3y"))
             {| x_api_key := None; authorization := Some (lit "Bearer k3y") |})
             (lit "k3y") eq_refl eq_refl)) eq_refl eq_refl).
  - reflexivity.
Defined.

(** X3.  [replace] takes "Bearer " out wherever it first occurs, so a
    header that carries the two halves of the key around the word is
    accepted as well: with [x-api-key] absent, [authorization] made of a
    first part without the letter B, then "Bearer ", then a second part,
    passes when the two parts together are the key. *)
Theorem split_key_is_accepted (key a b : jsstr) :
  nonempty key = true ->
  key = a ++ b ->
  Forall (fun v => v <> 66%N) a ->
  checkApiAuth (Some key)
    {| x_api_key := None; authorization := Some (a ++ lit "Bearer " ++ b) |} = true.
Proof.
  intros Hkey -> Ha. unfold checkApiAuth. cbn [env_set]. rewrite Hkey.
  cbn [negb x_api_key authorization fmap option_fmap option_map]. cbv zeta.
  apply bool_decide_eq_true_2. f_equal.
  exact (replace_first_behind 66%N (lit "earer ") a b Ha).
Qed.

Lemma split_key_is_accepted_witness :
  nonempty (lit "k3y") = true
  /\ lit "k3y" = lit "k3" ++ lit "y"
  /\ Forall (fun v => v <> 66%N) (lit "k3")
  /\ checkApiAuth (Some (lit "k3y"))
       {| x_api_key := None; authorization := Some (lit "k3Bearer y") |} = true.
Proof.
  assert (Ha : Forall (fun v => v <> 66%N) (lit "k3"))
    by (repeat constructor; discriminate).
  split; [reflexivity|]. split; [reflexivity|]. split; [exact Ha|].
  exact (split_key_is_accepted (lit "k3y") (lit "k3") (lit "y") eq_refl eq_refl Ha).
Defined.

(** ** [POST /query] *)

(** A request that ends without a call to the agent. *)
Ltac turned_away :=
  intros [= <- <-]; repeat split; try (now left); try discriminate;
  try (intros [[=] | [=]]).

(** X4.  The REST endpoint calls the agent at most once, and only for a
    request that passed the key check, whose body is an object with a
    non-empty text prompt of at most 100000 code units, in an environment
    with an agent credential; the prompt it sends is the wrapped prompt.
    A request that fails the key check is refused with 401 before its body
    is looked at, and no response with status 400 or 401 comes with a
    call. *)
Theorem rest_calls_agent_only_when_valid
    (configuredKey : option jsstr) (env : Env) (h : Headers) (body : parsed)
    (ms : list SDKMessage) (e : Ending) (resp : HttpResponse) (calls : list RestCall) :
  post_query configuredKey env h body ms e = (resp, calls) ->
  (calls = []
   \/ exists data text model,
        calls = [{| rest_prompt := coordinatedPrompt text; rest_model := model |}]
        /\ checkApiAuth configuredKey h = true
        /\ body = Value data
        /\ opt_member data (lit "prompt") = Some (JStr text)
        /\ acceptable text
        /\ configured env)
  /\ (status resp = 400%N \/ status resp = 401%N -> calls = [])
  /\ (checkApiAuth configuredKey h = false ->
      resp = refusal 401 (lit "Unauthorized - Invalid or missing API key"))
  /\ (status resp = 200%N -> e = Completes /\ calls <> []).
Proof.
  unfold post_query.
  destruct (checkApiAuth configuredKey h) eqn:Hauth; cbn [negb]; [|turned_away].
  destruct body as [|data]; [turned_away|].
  destruct (member data (lit "prompt")) as [prompt|] eqn:Hp; [|turned_away].
  destruct (member data (lit "options")) as [opts|]; [|turned_away].
  cbv zeta.
  destruct (truthy_opt prompt) eqn:Ht; cbn [negb]; [|turned_away].
  destruct prompt as [[| | |text| |]|]; try turned_away.
  destruct (Z.ltb_spec 100000 (Z.of_nat (length text))) as [Hlen|Hlen]; [turned_away|].
  destruct (negb (env_set (ANTHROPIC_API_KEY env))
            && negb (env_set (CLAUDE_CODE_OAUTH_TOKEN env))) eqn:Henv; [turned_away|].
  destruct (member _ (lit "model")) as [model|]; [|turned_away].
  assert (Hvalid : opt_member data (lit "prompt") = Some (JStr text)
                   /\ acceptable text /\ configured env).
  { split; [unfold opt_member; now rewrite Hp|]. split.
    - split; [|lia]. intros ->. discriminate Ht.
    - unfold configured.
      destruct (env_set (ANTHROPIC_API_KEY env)),
               (env_set (CLAUDE_CODE_OAUTH_TOKEN env)); try reflexivity; discriminate. }
  destruct e; intros [= <- <-];
    (split; [right; do 3 eexists; split; [reflexivity|];
             split; [reflexivity|]; split; [reflexivity | exact Hvalid]|]);
    repeat split; try discriminate; intros [[=] | [=]].
Qed.

Lemma rest_calls_agent_only_when_valid_witness :
  post_query (Some (lit "k3y")) env_ok
    {| x_api_key := Some (lit "k3y"); authorization := None |}
    (Value (JObj [(lit "prompt", JNum 7)])) [] Completes
  = (refusal 400 (lit "Prompt must be a string"), [])
  /\ (status (refusal 400 (lit "Prompt must be a string")) = 400%N
      \/ status (refusal 400 (lit "Prompt must be a string")) = 401%N -> [] = @nil RestCall).
Proof.
  split; [reflexivity|].
  exact (proj1 (proj2 (rest_calls_agent_only_when_valid (Some (lit "k3y")) env_ok
           {| x_api_key := Some (lit "k3y"); authorization := None |}
           (Value (JObj [(lit "prompt", JNum 7)])) [] Completes _ _ eq_refl))).
Defined.

(** X5.  When the REST endpoint answers 200, the agent's stream completed
    and the response is the text of the text blocks of the assistant
    messages, in order: the same text, as one value, that the WebSocket
    relay sends chunk by chunk for the same messages.  When the stream
    raises, the answer is 500 and carries none of the text. *)
Theorem rest_response_is_relayed_text
    (configuredKey : option jsstr) (env : Env) (h : Headers) (body : parsed)
    (ms : list SDKMessage) (e : Ending) (ws : conn) :
  (status (fst (post_query configuredKey env h body ms e)) = 200%N ->
   e = Completes
   /\ payload (fst (post_query configuredKey env h body ms e))
      = QueryBody (concat (message_text <$> ms))
   /\ exists acts,
        feed (AwaitNext ws) (script ms Completes) = Some (acts, Settled Returned)
        /\ sent_to ws acts = (Text <$> stream_units ms) ++ [Done]
        /\ concat (stream_units ms) = concat (message_text <$> ms))
  /\ (e = Raises ->
      forall text, payload (fst (post_query configuredKey env h body ms e))
                   <> QueryBody text).
Proof.
  unfold post_query in *.
  destruct (checkApiAuth configuredKey h); cbn [negb] in *;
    [|split; [discriminate | intros _ text; discriminate]].
  destruct body as [|data]; [split; [discriminate | intros _ text; discriminate]|].
  destruct (member data (lit "prompt")) as [prompt|];
    [|split; [discriminate | intros _ text; discriminate]].
  destruct (member data (lit "options")) as [opts|];
    [|split; [discriminate | intros _ text; discriminate]].
  cbv zeta in *.
  destruct (negb (truthy_opt prompt));
    [split; [discriminate | intros _ text; discriminate]|].
  destruct prompt as [[| | |text| |]|];
    try (split; [discriminate | intros _ text'; discriminate]).
  destruct (_ <? _)%Z; [split; [discriminate | intros _ text'; discriminate]|].
  destruct (_ && _); [split; [discriminate | intros _ text'; discriminate]|].
  destruct (member _ (lit "model")) as [model|];
    [|split; [discriminate | intros _ text'; discriminate]].
  destruct e; cbn [fst status payload].
  - split; [|discriminate]. intros _. split; [reflexivity|].
    split; [now rewrite collect_text_concat|].
    eexists. split; [apply feed_script|]. split; [|apply stream_units_concat].
    rewrite sent_to_app, sent_to_transcript. cbn.
    now rewrite bool_decide_eq_true_2.
  - split; [discriminate | intros _ text'; discriminate].
Qed.

Lemma rest_response_is_relayed_text_witness :
  status (fst (post_query None env_ok {| x_api_key := None; authorization := None |}
                 (prompt_frame (lit "hi"))
                 [init_message (lit "s1"); assistant_message [lit "he"; lit "y"]]
                 Completes)) = 200%N
  /\ payload (fst (post_query None env_ok {| x_api_key := None; authorization := None |}
                     (prompt_frame (lit "hi"))
                     [init_message (lit "s1"); assistant_message [lit "he"; lit "y"]]
                     Completes))
     = QueryBody (concat (message_text
                            <$> [init_message (lit "s1");
                                 assistant_message [lit "he"; lit "y"]])).
Proof.
  split; [reflexivity|].
  exact (proj1 (proj2 (proj1 (rest_response_is_relayed_text None env_ok
           {| x_api_key := None; authorization := None |} (prompt_frame (lit "hi"))
           [init_message (lit "s1"); assistant_message [lit "he"; lit "y"]]
           Completes 1) eq_refl))).
Defined.

(** X6.  The prompt sent to the agent by the REST endpoint is the user's
    prompt, unchanged, between a fixed opening and a fixed closing text:
    it is 379 code units longer than the user's prompt, and two requests
    send the same agent prompt only if their prompts are the same. *)
Theorem coordinated_prompt_keeps_prompt (p q : jsstr) :
  length (coordinatedPrompt p) = 379 + length p
  /\ take (length p) (drop (length coordinated_prefix) (coordinatedPrompt p)) = p
  /\ (coordinatedPrompt p = coordinatedPrompt q -> p = q).
Proof.
  unfold coordinatedPrompt. split; [|split].
  - rewrite !length_app.
    change (length coordinated_prefix) with 33.
    change (length coordinated_suffix) with 346. lia.
  - rewrite drop_app_length. apply take_app_length.
  - intros H. apply app_inv_head in H. now apply app_inv_tail in H.
Qed.

Lemma coordinated_prompt_keeps_prompt_witness :
  coordinatedPrompt (lit "a") = coordinatedPrompt (lit "a")
  /\ lit "a" = lit "a".
Proof.
  split; [reflexivity|].
  exact (proj2 (proj2 (coordinated_prompt_keeps_prompt (lit "a") (lit "a"))) eq_refl).
Defined.

(** ** [GET /auth/verify] *)

(** ** [GET /health] *)

(** X8.  With the SDK loaded, the health endpoint says "healthy" exactly
    when an agent credential is configured, and that is exactly when a
    valid prompt on a verified connection reaches the agent: when the
    status is "unhealthy", every such prompt is answered with the
    configuration error and nothing is called, on the WebSocket and on the
    REST endpoint alike. *)
Theorem health_tells_whether_prompts_are_served
    (env : Env) (s : Server) (ws : conn) (prompt : jsstr) :
  tokenVerified s !! ws = Some true ->
  acceptable prompt ->
  (health_status (health env true) = lit "healthy" <-> configured env)
  /\ (health_status (health env true) = lit "healthy" ->
      onMessage env s ws (prompt_frame prompt)
      = ([call_query ws prompt (resume_option (sessionIds s !! ws))], AwaitNext ws))
  /\ (health_status (health env true) = lit "unhealthy" ->
      onMessage env s ws (prompt_frame prompt)
      = ([ws_send ws
            (Error (lit "ANTHROPIC_API_KEY or CLAUDE_CODE_OAUTH_TOKEN must be configured"))],
         Settled Returned)
      /\ forall h ms e,
           snd (post_query None env h (prompt_frame prompt) ms e) = []).
Proof.
  intros Hv Hp.
  assert (Hiff : health_status (health env true) = lit "healthy" <-> configured env).
  { unfold health, configured. cbn [health_status].
    destruct (env_set (ANTHROPIC_API_KEY env) || env_set (CLAUDE_CODE_OAUTH_TOKEN env));
      cbn [andb]; split; try reflexivity; discriminate. }
  split; [exact Hiff|]. split.
  - intros Hh. apply onMessage_prompt; [assumption | assumption | now apply Hiff].
  - intros Hu.
    assert (Hno : negb (env_set (ANTHROPIC_API_KEY env))
                  && negb (env_set (CLAUDE_CODE_OAUTH_TOKEN env)) = true).
    { unfold health in Hu. cbn [health_status] in Hu.
      destruct (env_set (ANTHROPIC_API_KEY env)),
               (env_set (CLAUDE_CODE_OAUTH_TOKEN env)); try discriminate Hu; reflexivity. }
    destruct Hp as [Hne Hlen].
    assert (Hshort : (100000 <? Z.of_nat (length prompt))%Z = false)
      by (apply Z.ltb_ge; lia).
    destruct prompt as [|u prompt]; [congruence|]. split.
    + unfold onMessage, prompt_frame.
      change (member _ (lit "token")) with (Some (@None json)). cbv iota.
      unfold handle_prompt. cbv zeta. rewrite Hv. cbn [from_option id negb].
      change (opt_member _ (lit "prompt")) with (Some (JStr (u :: prompt))). cbv iota.
      cbn [truthy nonempty negb]. now rewrite Hshort, Hno.
    + intros h ms e. unfold post_query, prompt_frame.
      change (checkApiAuth None h) with true. cbn [negb].
      change (member _ (lit "prompt")) with (Some (Some (JStr (u :: prompt)))).
      change (member _ (lit "options")) with (Some (@None json)). cbv iota zeta.
      cbn [truthy_opt truthy nonempty negb]. now rewrite Hshort, Hno.
Qed.

Lemma health_tells_whether_prompts_are_served_witness :
  tokenVerified (perform_all (server boot) [tokenVerified_set 1 true]) !! 1 = Some true
  /\ acceptable (lit "hi")
  /\ (health_status (health env_ok true) = lit "healthy" <-> configured env_ok).
Proof.
  assert (Hacc : acceptable (lit "hi"))
    by (split; [discriminate | vm_compute; discriminate]).
  split; [reflexivity|]. split; [exact Hacc|].
  exact (proj1 (health_tells_whether_prompts_are_served env_ok
                  (perform_all (server boot) [tokenVerified_set 1 true]) 1 (lit "hi")
                  eq_refl Hacc)).
Defined.

(** ** The client's pane *)

Lemma client_pane_app pane ms1 ms2 :
  client_pane pane (ms1 ++ ms2) = client_pane (client_pane pane ms1) ms2.
Proof. apply fold_left_app. Qed.

Lemma client_pane_texts pane units :
  client_pane pane (Text <$> units) = pane ++ concat units.
Proof.
  unfold client_pane. revert pane.
  induction units as [|u units IH]; intros pane;
    cbn [fmap list_fmap fold_left client_log concat].
  - now rewrite app_nil_r.
  - change (list_fmap _ _ Text units) with (Text <$> units).
    now rewrite IH, app_assoc.
Qed.

(** X9.  What the user sees of a turn.  The client appends to its pane the
    messages an invocation sends; for an upstream sequence that completes
    the pane grows by the text of the assistant messages followed by a
    line break, and for one that raises by the text relayed so far
    followed by the line of the error.  The text is the one the REST
    endpoint would return for the same messages. *)
Theorem pane_shows_agent_text (ws : conn) (pane : jsstr) (ms : list SDKMessage) :
  (exists acts,
      feed (AwaitNext ws) (script ms Completes) = Some (acts, Settled Returned)
      /\ client_pane pane (sent_to ws acts) = pane ++ collect_text ms ++ [10%N])
  /\ (exists acts,
      feed (AwaitNext ws) (script ms Raises) = Some (acts, Settled Returned)
      /\ client_pane pane (sent_to ws acts)
         = pane ++ collect_text ms
             ++ [10006%N] ++ lit " Error: Failed to process query" ++ [10%N]).
Proof.
  assert (Hsent : forall e,
             sent_to ws (transcript ws ms ++ [ws_send ws (final e)]) =
             (Text <$> stream_units ms) ++ [final e]).
  { intros e. rewrite sent_to_app, sent_to_transcript. cbn.
    now rewrite bool_decide_eq_true_2. }
  split; eexists; (split; [apply feed_script|]); rewrite Hsent, client_pane_app,
    client_pane_texts, stream_units_concat, <- collect_text_concat; cbn;
    now rewrite <- !app_assoc.
Qed.

(** * More about the WebSocket handler *)

(** ** One connection does not touch another *)

Lemma relay_action_conn w a : relay_action w a -> action_conn a = w.
Proof. destruct a as [| | | |w' []| |]; cbn; try contradiction; congruence. Qed.

Lemma turn_actions_conn env sys l acts p w :
  turn env sys l = Some (acts, p) ->
  label_conn sys l = Some w ->
  Forall (fun a => action_conn a = w) acts.
Proof.
  destruct l as [w0|w0 d|i r|w0]; cbn [turn label_conn].
  - intros [= <- <-] [= <-]. repeat constructor.
  - destruct (onMessage env (server sys) w0 d) as [acts0 t0] eqn:E.
    intros [= <- <-] [= <-].
    destruct (onMessage_cases _ _ _ _ _ _ E)
      as [(? & -> & _) | [(? & -> & _) | (? & _ & [-> | (? & ->)])]];
      repeat constructor.
  - destruct (pool sys !! i) as [t0|] eqn:Hi; [|discriminate].
    destruct (resume t0 r) as [[acts0 t']|] eqn:E; [|discriminate].
    intros [= <- <-]. cbn [mbind option_bind]. intros Hw.
    destruct (resume_cases _ _ _ _ E)
      as [(w0 & ? & -> & _ & ->) | [(w0 & -> & _ & ->) | (w0 & Hs0 & Hrel & _)]].
    + injection Hw as <-. repeat constructor.
    + injection Hw as <-. repeat constructor.
    + assert (w0 = w) as ->.
      { destruct t0; cbn in Hs0, Hw; try discriminate;
          apply bool_decide_eq_true_1 in Hs0; congruence. }
      eapply Forall_impl; [exact Hrel | apply relay_action_conn].
  - intros [= <- <-] [= <-]. repeat constructor.
Qed.

Lemma foreign_actions s ws w acts :
  Forall (fun a => action_conn a = w) acts ->
  ws <> w ->
  sent_to ws acts = [] /\ queries_on ws acts = [] /\ verifications_on ws acts = []
  /\ sessionIds (perform_all s acts) !! ws = sessionIds s !! ws
  /\ tokenVerified (perform_all s acts) !! ws = tokenVerified s !! ws.
Proof.
  intros Hall Hne. revert s. induction Hall as [|a acts Ha _ IH]; intros s.
  - now repeat split.
  - destruct (IH (perform s a)) as (H1 & H2 & H3 & H4 & H5).
    cbn [perform_all fold_left].
    change (fold_left perform acts ?x) with (perform_all x acts).
    rewrite H4, H5.
    destruct a; cbn in Ha; subst; cbn;
      rewrite ?bool_decide_eq_false_2 by congruence;
      rewrite ?lookup_insert_ne, ?lookup_delete_ne by congruence;
      now repeat split.
Qed.

(** ** Closing and reopening *)

(** X11.  [onClose] removes the connection's two entries but does not stop
    an invocation that holds an agent stream: the invocation goes on to
    the end of its stream, every message is still handed to [ws.send], and
    an init message that arrives after the close puts a session identifier
    for the closed connection back into [sessionIds], where nothing
    removes it; the verified entry stays removed. *)
Theorem relay_outlives_close
    (env : Env) (sys : Sys) (ws : conn) (i : nat) (ms : list SDKMessage) (e : Ending) :
  pool sys !! i = Some (AwaitNext ws) ->
  exists sys',
    run env sys (Close ws :: (Resume i <$> script ms e)) = Some sys'
    /\ sent_to ws (trace sys') =
       sent_to ws (trace sys) ++ (Text <$> stream_units ms) ++ [final e]
    /\ tokenVerified (server sys') !! ws = None
    /\ sessionIds (server sys') !! ws = captured ms
    /\ pool sys' !! i = Some (Settled Returned).
Proof.
  intros Hi. eexists. split.
  { cbn [run]. unfold exec at 1. cbn [turn].
    apply (run_resume_feed env i (script ms e) (commit sys (onClose ws) (pool sys))
             (AwaitNext ws) _ _ Hi (feed_script ws ms e)). }
  rewrite commit_commit. cbn [commit server trace pool]. split; [|split; [|split]].
  - rewrite sent_to_app. f_equal. unfold onClose. cbn [app].
    change (sent_to ws (sessionIds_delete ws :: tokenVerified_delete ws :: ?l))
      with (sent_to ws l).
    rewrite sent_to_app, sent_to_transcript. cbn. now rewrite bool_decide_eq_true_2.
  - unfold onClose. cbn [app].
    change (perform_all ?s (sessionIds_delete ws :: tokenVerified_delete ws :: ?l))
      with (perform_all (perform (perform s (sessionIds_delete ws))
                                 (tokenVerified_delete ws)) l).
    rewrite perform_all_app, perform_all_transcript. cbn. apply lookup_delete_eq.
  - unfold onClose. cbn [app].
    change (perform_all ?s (sessionIds_delete ws :: tokenVerified_delete ws :: ?l))
      with (perform_all (perform (perform s (sessionIds_delete ws))
                                 (tokenVerified_delete ws)) l).
    rewrite perform_all_app, perform_all_transcript. cbn.
    destruct (captured ms); [apply lookup_insert_eq | apply lookup_delete_eq].
  - apply list_lookup_insert_eq. eapply lookup_lt_Some, Hi.
Qed.

Lemma relay_outlives_close_witness :
  exists sys sys',
    run env_ok boot (signed_in ++ [Message 1 (prompt_frame (lit "hi"))]) = Some sys
    /\ pool sys !! 1 = Some (AwaitNext 1)
    /\ run env_ok sys (Close 1 :: (Resume 1 <$> script [init_message (lit "s9")] Completes))
       = Some sys'
    /\ sessionIds (server sys') !! 1 = Some (lit "s9")
    /\ tokenVerified (server sys') !! 1 = None.
Proof.
  eexists.
  match goal with
  | |- exists sys', run _ _ _ = Some ?s /\ _ =>
      assert (Hrun : run env_ok boot (signed_in ++ [Message 1 (prompt_frame (lit "hi"))])
                     = Some s) by reflexivity;
      destruct (relay_outlives_close env_ok s 1 1 [init_message (lit "s9")] Completes
                  eq_refl) as (sys' & Hrun' & _ & Hflag & Hid & _)
  end.
  exists sys'. split; [exact Hrun|]. split; [reflexivity|]. split; [exact Hrun'|].
  split; [exact Hid | exact Hflag].
Defined.

(** X12.  Whatever a connection object went through before, [onOpen]
    leaves it with an empty session identifier and an unverified flag and
    sends [ready]; a prompt is then refused as not authenticated, and once
    a credential has been verified the first prompt calls the agent
    without a resume handle. *)
Theorem opened_connection_starts_fresh
    (env : Env) (sys : Sys) (ws : conn) (data token result : json) (prompt : jsstr) :
  member data (lit "token") = Some (Some token) ->
  truthy token = true ->
  acceptable prompt ->
  configured env ->
  exists sys1 sys',
    exec env sys (Open ws) = Some sys1
    /\ sessionIds (server sys1) !! ws = Some []
    /\ tokenVerified (server sys1) !! ws = Some false
    /\ sent_to ws (trace sys1) = sent_to ws (trace sys) ++ [Ready]
    /\ onMessage env (server sys1) ws (prompt_frame prompt)
       = ([ws_send ws (Error (lit "Not authenticated."))], Settled Returned)
    /\ run env sys1 [Message ws (Value data);
                     Resume (length (pool sys1)) (Resolved result);
                     Message ws (prompt_frame prompt)] = Some sys'
    /\ queries_on ws (trace sys') = queries_on ws (trace sys) ++ [(prompt, None)].
Proof.
  intros Hm Ht Hp Hcfg.
  set (sys1 := commit sys (onOpen ws) (pool sys)).
  assert (Hid : sessionIds (server sys1) !! ws = Some []).
  { cbn. apply lookup_insert_eq. }
  assert (Hflag : tokenVerified (server sys1) !! ws = Some false).
  { cbn. apply lookup_insert_eq. }
  set (sys2 := commit sys1 [call_verifyToken ws token; tokenVerified_set ws true;
                            ws_send ws (TokenVerified true result)]
                 (pool sys1 ++ [Settled Returned])).
  assert (Hflag2 : tokenVerified (server sys2) !! ws = Some true).
  { cbn. apply lookup_insert_eq. }
  assert (Hid2 : sessionIds (server sys2) !! ws = Some []) by exact Hid.
  exists sys1. eexists. split; [reflexivity|]. split; [exact Hid|]. split; [exact Hflag|].
  split; [|split; [|split]].
  - cbn [sys1 commit trace]. rewrite sent_to_app. cbn.
    now rewrite bool_decide_eq_true_2.
  - unfold onMessage, prompt_frame.
    change (member _ (lit "token")) with (Some (@None json)). cbv iota.
    unfold handle_prompt. cbv zeta. now rewrite Hflag.
  - change [Message ws (Value data); Resume (length (pool sys1)) (Resolved result);
            Message ws (prompt_frame prompt)]
      with ([Message ws (Value data); Resume (length (pool sys1)) (Resolved result)]
            ++ [Message ws (prompt_frame prompt)]).
    generalize (run_credential env sys1 ws data token (Resolved result) _ _ Hm Ht eq_refl).
    fold sys2. intros Hrun. cbn [run app] in *.
    destruct (exec env sys1 (Message ws (Value data))) as [s1|]; [|discriminate].
    destruct (exec env s1 (Resume (length (pool sys1)) (Resolved result))) as [s2|];
      [|discriminate].
    injection Hrun as ->. unfold exec. cbn [turn].
    rewrite (onMessage_prompt env (server sys2) ws prompt Hflag2 Hp Hcfg), Hid2.
    reflexivity.
  - cbn [commit trace sys1 sys2 resume_option nonempty]. rewrite !queries_on_app. cbn.
    now rewrite bool_decide_eq_true_2, !app_nil_r.
Qed.

Lemma opened_connection_starts_fresh_witness :
  exists sys sys1 sys',
    run env_ok boot hi_labels = Some sys
    /\ sessionIds (server sys) !! 1 = Some (lit "s1")
    /\ exec env_ok sys (Open 1) = Some sys1
    /\ run env_ok sys1 [Message 1 (credential_frame (lit "jwt"));
                        Resume (length (pool sys1)) (Resolved subject);
                        Message 1 (prompt_frame (lit "new"))] = Some sys'
    /\ queries_on 1 (trace sys') = queries_on 1 (trace sys) ++ [(lit "new", None)].
Proof.
  assert (Hacc : acceptable (lit "new"))
    by (split; [discriminate | vm_compute; discriminate]).
  eexists.
  match goal with
  | |- exists sys1 sys', run _ _ _ = Some ?s /\ _ =>
      assert (Hrun : run env_ok boot hi_labels = Some s) by reflexivity;
      destruct (opened_connection_starts_fresh env_ok s 1
                  (JObj [(lit "token", JStr (lit "jwt"))]) (JStr (lit "jwt")) subject
                  (lit "new") eq_refl eq_refl Hacc eq_refl)
        as (sys1 & sys' & Hopen & _ & _ & _ & _ & Hrun' & Hq)
  end.
  exists sys1, sys'. split; [exact Hrun|]. split; [reflexivity|].
  split; [exact Hopen|]. split; [exact Hrun' | exact Hq].
Defined.

(** ** Frames that carry no prompt *)

(** X13.  A frame without a credential is refused as not authenticated on
    a connection that is not verified, whatever it carries, even when it
    has no prompt at all; on a verified connection a frame with no prompt
    (an object without the field, or a number, a string, a boolean or an
    array) is dropped without an answer.  The frame [null] makes the
    handler throw before it does anything, on any connection. *)
Theorem frames_without_prompt (env : Env) (s : Server) (ws : conn) (data : json) :
  no_credential data ->
  (tokenVerified s !! ws <> Some true ->
   onMessage env s ws (Value data)
   = ([ws_send ws (Error (lit "Not authenticated."))], Settled Returned))
  /\ (tokenVerified s !! ws = Some true ->
      opt_member data (lit "prompt") = None ->
      onMessage env s ws (Value data) = ([], Settled Returned))
  /\ (forall x, data = JNum x \/ (exists t, data = JStr t)
                \/ (exists b, data = JBool b) \/ (exists items, data = JArr items) ->
      opt_member data (lit "prompt") = None)
  /\ onMessage env s ws (Value JNull) = ([], Settled Threw).
Proof.
  intros Hnc. rewrite (onMessage_no_credential env s ws data Hnc).
  unfold handle_prompt. cbv zeta. repeat split.
  - intros Hflag. destruct (tokenVerified s !! ws) as [[|]|]; [congruence | |]; reflexivity.
  - intros -> ->. reflexivity.
  - intros x [-> | [(t & ->) | [(b & ->) | (items & ->)]]]; reflexivity.
Qed.

Lemma frames_without_prompt_witness :
  no_credential (JNum 7)
  /\ tokenVerified (server boot) !! 1 <> Some true
  /\ onMessage env_ok (server boot) 1 (Value (JNum 7))
     = ([ws_send 1 (Error (lit "Not authenticated."))], Settled Returned).
Proof.
  assert (Hflag : tokenVerified (server boot) !! 1 <> Some true) by discriminate.
  split; [exact I|]. split; [exact Hflag|].
  exact (proj1 (frames_without_prompt env_ok (server boot) 1 (JNum 7) I) Hflag).
Defined.

(** ** Without an agent credential *)

Lemma handle_prompt_unconfigured env s ws data acts t :
  ~ configured env ->
  handle_prompt env s ws data = (acts, t) ->
  (exists c, t = Settled c) /\ (acts = [] \/ exists msg, acts = [ws_send ws (Error msg)]).
Proof.
  intros Hno. unfold handle_prompt. cbv zeta.
  destruct (negb _); [intros [= <- <-]; split; eauto|].
  destruct (opt_member data (lit "prompt")) as [p|]; [|intros [= <- <-]; split; eauto].
  destruct (negb (truthy p)); [intros [= <- <-]; split; eauto|].
  destruct p; try (intros [= <- <-]; split; eauto).
  destruct (_ <? _)%Z; [intros [= <- <-]; split; eauto|].
  destruct (_ && _) eqn:Henv; [intros [= <- <-]; split; eauto|].
  exfalso. apply Hno. unfold configured.
  destruct (env_set (ANTHROPIC_API_KEY env)), (env_set (CLAUDE_CODE_OAUTH_TOKEN env));
    try reflexivity; discriminate.
Qed.

(** Invocations that hold no agent stream, and traces without a call to
    the agent. *)
Lemma unconfigured_exec env sys l sys' :
  ~ configured env ->
  exec env sys l = Some sys' ->
  Forall (fun t => forall w, streaming_on w t = false) (pool sys) ->
  (forall w, queries_on w (trace sys) = []) ->
  Forall (fun t => forall w, streaming_on w t = false) (pool sys')
  /\ (forall w, queries_on w (trace sys') = []).
Proof.
  intros Hno. unfold exec.
  destruct (turn env sys l) as [[acts p]|] eqn:E; [|discriminate].
  intros [= <-] Hpool Hq. cbn [commit pool trace].
  enough (H : Forall (fun t => forall w, streaming_on w t = false) p
              /\ forall w, queries_on w acts = []).
  { destruct H as [H1 H2]. split; [exact H1|].
    intros w. now rewrite queries_on_app, Hq, H2. }
  destruct l as [w0|w0 d|i r|w0]; cbn [turn] in E.
  - injection E as <- <-. now split.
  - destruct (onMessage env (server sys) w0 d) as [acts0 t0] eqn:Em.
    injection E as <- <-.
    assert (Ht0 : (forall w, streaming_on w t0 = false)
                  /\ forall w, queries_on w acts0 = []).
    { unfold onMessage in Em. destruct d as [|data]; [now injection Em as <- <-|].
      destruct (member data (lit "token")) as [[token|]|];
        [destruct (truthy token); [now injection Em as <- <-|] | |
         now injection Em as <- <-];
        destruct (handle_prompt_unconfigured env _ _ _ _ _ Hno Em)
          as [(c & ->) [-> | (msg & ->)]]; now split. }
    destruct Ht0 as [Ht0 Hq0]. split; [|exact Hq0].
    apply Forall_app. split; [exact Hpool | now constructor].
  - destruct (pool sys !! i) as [t0|] eqn:Hi; [|discriminate].
    destruct (resume t0 r) as [[acts0 t']|] eqn:Er; [|discriminate].
    injection E as <- <-.
    pose proof (proj1 (Forall_lookup _ _) Hpool i t0 Hi) as Hidle.
    destruct (resume_cases _ _ _ _ Er)
      as [(w & ? & _ & -> & ->) | [(w & _ & -> & ->) | (w & Hs0 & _)]];
      [| | rewrite Hidle in Hs0; discriminate];
      (split; [|reflexivity]); apply Forall_insert; try assumption; now intros.
  - injection E as <- <-. now split.
Qed.

(** X14.  In an environment without an agent credential the agent is
    never called and no invocation ever holds an agent stream, whatever
    frames arrive on whatever connections and however their handling is
    interleaved. *)
Theorem unconfigured_server_never_calls_agent (env : Env) (sys : Sys) :
  ~ configured env ->
  reachable env sys ->
  forall ws, queries_on ws (trace sys) = [] /\ in_flight ws (pool sys) = 0.
Proof.
  intros Hno Hr.
  assert (H : Forall (fun t => forall w, streaming_on w t = false) (pool sys)
              /\ forall w, queries_on w (trace sys) = []).
  { induction Hr as [|sys l sys' _ [IH1 IH2] Hexec]; [now split|].
    eapply unconfigured_exec; eassumption. }
  destruct H as [Hpool Hq]. intros ws. split; [apply Hq|].
  unfold in_flight. induction Hpool as [|t p Ht _ IH]; [reflexivity|].
  cbn. now rewrite Ht.
Qed.

Lemma unconfigured_server_never_calls_agent_witness :
  exists sys,
    run {| ANTHROPIC_API_KEY := None; CLAUDE_CODE_OAUTH_TOKEN := Some [] |} boot
        (signed_in ++ [Message 1 (prompt_frame (lit "hi"))]) = Some sys
    /\ sent_to 1 (trace sys) =
       [Ready; TokenVerified true subject;
        Error (lit "ANTHROPIC_API_KEY or CLAUDE_CODE_OAUTH_TOKEN must be configured")]
    /\ queries_on 1 (trace sys) = [] /\ in_flight 1 (pool sys) = 0.
Proof.
  eexists. split; [reflexivity|]. split; [reflexivity|].
  apply (unconfigured_server_never_calls_agent
           {| ANTHROPIC_API_KEY := None; CLAUDE_CODE_OAUTH_TOKEN := Some [] |}).
  - discriminate.
  - apply (run_reachable _ (signed_in ++ [Message 1 (prompt_frame (lit "hi"))]) boot);
      [constructor | reflexivity].
Defined.

(** ** Calls to the outside *)

Lemma relay_actions_no_call w acts :
  Forall (relay_action w) acts -> List.filter is_call acts = [].
Proof.
  induction 1 as [|a acts Ha _ IH]; [reflexivity|].
  cbn. rewrite IH. destruct a as [| | | |w' []| |]; try contradiction; reflexivity.
Qed.

Lemma turn_calls env sys l acts p :
  turn env sys l = Some (acts, p) ->
  length (List.filter is_call acts) <= length (List.filter is_message [l]).
Proof.
  destruct l as [w0|w0 d|i r|w0]; cbn [turn].
  - intros [= <- <-]. cbn. lia.
  - destruct (onMessage env (server sys) w0 d) as [acts0 t0] eqn:E.
    intros [= <- <-].
    destruct (onMessage_cases _ _ _ _ _ _ E)
      as [(? & -> & _) | [(? & -> & _) | (? & _ & [-> | (? & ->)])]]; cbn; lia.
  - destruct (pool sys !! i) as [t0|]; [|discriminate].
    destruct (resume t0 r) as [[acts0 t']|] eqn:E; [|discriminate].
    intros [= <- <-].
    destruct (resume_cases _ _ _ _ E)
      as [(w & ? & _ & _ & ->) | [(w & _ & _ & ->) | (w & _ & Hrel & _)]];
      [cbn; lia | cbn; lia |].
    rewrite (relay_actions_no_call w acts0 Hrel). cbn. lia.
  - intros [= <- <-]. cbn. lia.
Qed.

(** X15.  The server calls an external service only when a frame arrives,
    and at most once for it: over any run of the event loop the calls to
    [verifyToken] and [query] together are no more than the message events;
    resumptions, opens and closes call nothing. *)
Theorem calls_are_bounded_by_frames (env : Env) (ls : list Label) :
  forall sys sys',
    run env sys ls = Some sys' ->
    exists acts,
      trace sys' = trace sys ++ acts
      /\ length (List.filter is_call acts) <= length (List.filter is_message ls).
Proof.
  induction ls as [|l ls IH]; intros sys sys'; cbn [run].
  - intros [= <-]. exists []. split; [now rewrite app_nil_r | cbn; lia].
  - unfold exec. destruct (turn env sys l) as [[acts p]|] eqn:E; [|discriminate].
    intros Hrun. destruct (IH _ _ Hrun) as (acts' & Htr & Hle).
    exists (acts ++ acts'). split; [rewrite Htr; cbn; now rewrite app_assoc|].
    pose proof (turn_calls env sys l acts p E) as Hl.
    change (l :: ls) with ([l] ++ ls). rewrite !List.filter_app, !length_app. lia.
Qed.

Lemma calls_are_bounded_by_frames_witness :
  exists sys acts,
    run env_ok boot hi_labels = Some sys
    /\ trace sys = trace boot ++ acts
    /\ length (List.filter is_call acts) <= length (List.filter is_message hi_labels).
Proof.
  eexists.
  match goal with
  | |- exists acts, run _ _ _ = Some ?s /\ _ =>
      assert (Hrun : run env_ok boot hi_labels = Some s) by reflexivity;
      destruct (calls_are_bounded_by_frames env_ok hi_labels boot s Hrun)
        as (acts & Htr & Hle)
  end.
  exists acts. split; [exact Hrun|]. split; [exact Htr | exact Hle].
Defined.

(** ** Pacing *)

Lemma ticks_of_script ms e :
  length (List.filter is_tick (script ms e)) = length (stream_units ms).
Proof.
  unfold script, stream_units. rewrite List.filter_app, length_app.
  replace (length (List.filter is_tick [terminal e])) with 0 by now destruct e.
  rewrite Nat.add_0_r. induction ms as [|m ms IH]; [reflexivity|].
  cbn [fmap list_fmap concat]. rewrite List.filter_app, !length_app, IH. f_equal.
  unfold script_message. cbn [List.filter is_tick].
  generalize (length (display_units m)) as n.
  induction n as [|n IHn]; [reflexivity | cbn; now rewrite IHn].
Qed.

Lemma texts_of_units units m :
  is_text_msg m = false ->
  length (List.filter is_text_msg ((Text <$> units) ++ [m])) = length units.
Proof.
  intros Hm. rewrite List.filter_app, length_app. cbn. rewrite Hm. cbn.
  rewrite Nat.add_0_r. induction units as [|u units IH]; [reflexivity|].
  cbn. now rewrite IH.
Qed.

(** X16.  An invocation that has come to the end of its agent stream has
    waited for the pacing timer once for every [text] message it sent, no
    more and no less. *)
Theorem one_pause_per_text_message
    (ws : conn) (rs : list Response) (acts : list Action) (c : Completion) :
  feed (AwaitNext ws) rs = Some (acts, Settled c) ->
  length (List.filter is_tick rs) = length (List.filter is_text_msg (sent_to ws acts)).
Proof.
  intros Hfeed.
  destruct (feed_complete_script ws rs (AwaitNext ws) acts c
              ltac:(cbn; now apply bool_decide_eq_true_2) Hfeed) as (ms & e & Hrs).
  cbn [ticks_needed repeat app] in Hrs. subst rs.
  rewrite feed_script in Hfeed. injection Hfeed as <- <-.
  rewrite ticks_of_script, sent_to_app, sent_to_transcript. cbn [sent_to omap list_omap].
  rewrite bool_decide_eq_true_2 by reflexivity. cbn [app].
  symmetry. apply texts_of_units. now destruct e.
Qed.

Lemma one_pause_per_text_message_witness :
  feed (AwaitNext 1) [Yield (assistant_message [lit "hi"]); Tick; Tick; Raised]
  = Some ([ws_send 1 (Text (lit "h")); ws_send 1 (Text (lit "i"));
           ws_send 1 (Error (lit "Failed to process query"))], Settled Returned)
  /\ length (List.filter is_tick
               [Yield (assistant_message [lit "hi"]); Tick; Tick; Raised])
     = length (List.filter is_text_msg
                 (sent_to 1 [ws_send 1 (Text (lit "h")); ws_send 1 (Text (lit "i"));
                             ws_send 1 (Error (lit "Failed to process query"))])).
Proof.
  split; [reflexivity|].
  exact (one_pause_per_text_message 1
           [Yield (assistant_message [lit "hi"]); Tick; Tick; Raised]
           [ws_send 1 (Text (lit "h")); ws_send 1 (Text (lit "i"));
            ws_send 1 (Error (lit "Failed to process query"))] Returned eq_refl).
Defined.

(** ** The two endpoints on the same prompt *)



(** X18.  For a request the REST endpoint accepts, the model asked of the
    agent is [options.model] when that is truthy and "claude-sonnet-4-5"
    otherwise, also when [options] is absent or is not an object; but a
    body whose [options] is [null] is answered with status 500 and the
    agent is not called. *)
Theorem rest_model_and_null_options
    (configuredKey : option jsstr) (env : Env) (h : Headers) (data : json)
    (text : jsstr) (ms : list SDKMessage) :
  checkApiAuth configuredKey h = true ->
  member data (lit "prompt") = Some (Some (JStr text)) ->
  acceptable text ->
  configured env ->
  (opt_member data (lit "options") = Some JNull ->
   forall e, post_query configuredKey env h (Value data) ms e
             = (failure OptionsNull, []))
  /\ (forall m,
        opt_member data (lit "options") ≫= (fun o => opt_member o (lit "model")) = Some m ->
        truthy m = true ->
        snd (post_query configuredKey env h (Value data) ms Completes)
        = [{| rest_prompt := coordinatedPrompt text; rest_model := m |}])
  /\ (opt_member data (lit "options") <> Some JNull ->
      truthy_opt (opt_member data (lit "options")
                  ≫= (fun o => opt_member o (lit "model"))) = false ->
      snd (post_query configuredKey env h (Value data) ms Completes)
      = [{| rest_prompt := coordinatedPrompt text;
            rest_model := JStr (lit "claude-sonnet-4-5") |}]).
Proof.
  intros Hauth Hp [Hne Hlen] Hcfg.
  assert (Hshort : (100000 <? Z.of_nat (length text))%Z = false)
    by (apply Z.ltb_ge; lia).
  assert (Henv : negb (env_set (ANTHROPIC_API_KEY env))
                 && negb (env_set (CLAUDE_CODE_OAUTH_TOKEN env)) = false).
  { unfold configured in Hcfg.
    destruct (env_set (ANTHROPIC_API_KEY env)), (env_set (CLAUDE_CODE_OAUTH_TOKEN env));
      try reflexivity; discriminate. }
  assert (Htext : truthy_opt (Some (JStr text)) = true)
    by (destruct text; [congruence | reflexivity]).
  assert (Hopts : member data (lit "options") = Some (opt_member data (lit "options"))).
  { unfold opt_member. destruct data; try discriminate; reflexivity. }
  unfold post_query. rewrite Hauth, Hp, Hopts, Htext. cbn [negb]. cbv zeta iota.
  rewrite Hshort, Henv.
  destruct (opt_member data (lit "options")) as [o|] eqn:Ho; cbn [mbind option_bind].
  - split; [intros [= ->]; reflexivity|]. split.
    + intros m Hm Ht. unfold opt_member in Hm.
      destruct (member o (lit "model")) as [[m'|]|]; try discriminate.
      injection Hm as ->. cbn [snd]. now rewrite Ht.
    + intros Hnn Hf. unfold opt_member in Hf.
      destruct (member o (lit "model")) as [[m'|]|] eqn:Hmo.
      * cbn [truthy_opt] in Hf. cbn [snd]. now rewrite Hf.
      * reflexivity.
      * destruct o; try discriminate Hmo. congruence.
  - split; [discriminate|]. split; [discriminate|]. reflexivity.
Qed.

Lemma rest_model_and_null_options_witness :
  acceptable (lit "hi")
  /\ configured env_ok
  /\ post_query None env_ok {| x_api_key := None; authorization := None |}
       (Value (JObj [(lit "prompt", JStr (lit "hi")); (lit "options", JNull)]))
       [] Completes
     = (failure OptionsNull, []).
Proof.
  assert (Hacc : acceptable (lit "hi"))
    by (split; [discriminate | vm_compute; discriminate]).
  split; [exact Hacc|]. split; [reflexivity|].
  exact (proj1 (rest_model_and_null_options None env_ok
                  {| x_api_key := None; authorization := None |}
                  (JObj [(lit "prompt", JStr (lit "hi")); (lit "options", JNull)])
                  (lit "hi") [] eq_refl eq_refl Hacc eq_refl) eq_refl Completes).
Defined.

(** * Credential frames, failed verification and the stored handle *)

(** ** A falsy token *)

Lemma own_property_drop_other k k0 props :
  k <> k0 -> own_property k (drop_property k0 props) = own_property k props.
Proof.
  intros Hne. induction props as [|[k' v] props IH]; [reflexivity|].
  unfold drop_property in *. cbn [List.filter fst own_property].
  destruct (bool_decide (k' = k0)) eqn:E; cbn [negb own_property].
  - apply bool_decide_eq_true_1 in E. subst k'.
    rewrite bool_decide_eq_false_2 by congruence. exact IH.
  - rewrite IH. reflexivity.
Qed.

Lemma own_property_drop_same k props : own_property k (drop_property k props) = None.
Proof.
  induction props as [|[k' v] props IH]; [reflexivity|].
  unfold drop_property in *. cbn [List.filter fst].
  destruct (bool_decide (k' = k)) eqn:E; cbn [negb own_property]; [exact IH|].
  now rewrite E.
Qed.

Lemma handle_prompt_same_prompt env s ws data data' :
  opt_member data (lit "prompt") = opt_member data' (lit "prompt") ->
  handle_prompt env s ws data = handle_prompt env s ws data'.
Proof. intros H. unfold handle_prompt. now rewrite H. Qed.

Lemma handle_prompt_verifies_nothing env s ws data w :
  verifications_on w (fst (handle_prompt env s ws data)) = [].
Proof.
  unfold handle_prompt. cbv zeta.
  destruct (negb _); [reflexivity|].
  destruct (opt_member data (lit "prompt")) as [p|]; [|reflexivity].
  destruct (negb (truthy p)); [reflexivity|].
  destruct p; try reflexivity.
  destruct (_ <? _)%Z; [reflexivity|].
  destruct (_ && _); reflexivity.
Qed.

(** C8, amended.  A frame whose [token] is truthy is a credential frame,
    whatever else it carries: the invocation calls the token verifier with
    that token and, however it goes on, never calls the agent.  A frame
    whose [token] is falsy is handled as the same frame without the [token]
    field would be: the token verifier is not called and the frame goes
    through the authentication gate and the prompt checks. *)
Theorem truthy_token_frame_is_credential
    (env : Env) (s : Server) (ws : conn) (data : json) (token : json) :
  member data (lit "token") = Some (Some token) ->
  (truthy token = true ->
   onMessage env s ws (Value data) = ([call_verifyToken ws token], AwaitVerify ws)
   /\ forall rs acts t w,
        feed (AwaitVerify ws) rs = Some (acts, t) ->
        queries_on w (call_verifyToken ws token :: acts) = []
        /\ verifications_on ws (call_verifyToken ws token :: acts) = [token])
  /\ (truthy token = false ->
      member (without_token data) (lit "token") = Some None
      /\ opt_member (without_token data) (lit "prompt") = opt_member data (lit "prompt")
      /\ onMessage env s ws (Value data) = onMessage env s ws (Value (without_token data))
      /\ onMessage env s ws (Value data) = handle_prompt env s ws data
      /\ forall w, verifications_on w (fst (onMessage env s ws (Value data))) = []).
Proof.
  intros Hm. split.
  - intros Ht. split; [now apply onMessage_credential|].
    intros rs acts t w Hfeed.
    destruct (feed_verify _ _ _ _ Hfeed)
      as [(_ & -> & _) | [(result & _ & -> & _) | (_ & -> & _)]];
      (split; [reflexivity|]); cbn; now rewrite bool_decide_eq_true_2.
  - intros Hf.
    assert (Hhere : onMessage env s ws (Value data) = handle_prompt env s ws data).
    { apply onMessage_no_credential. unfold no_credential. now rewrite Hm. }
    destruct data as [| | | | |props]; try discriminate Hm.
    assert (Htok : member (without_token (JObj props)) (lit "token") = Some None).
    { cbn [without_token member]. now rewrite own_property_drop_same. }
    assert (Hprompt : opt_member (without_token (JObj props)) (lit "prompt")
                      = opt_member (JObj props) (lit "prompt")).
    { unfold opt_member. cbn [without_token member].
      apply own_property_drop_other. discriminate. }
    split; [exact Htok|]. split; [exact Hprompt|]. split; [|split].
    + rewrite Hhere. unfold onMessage at 1. rewrite Htok.
      now apply handle_prompt_same_prompt.
    + exact Hhere.
    + intros w. rewrite Hhere. apply handle_prompt_verifies_nothing.
Qed.

Lemma truthy_token_frame_is_credential_witness :
  member (JObj [(lit "token", JStr (lit "jwt")); (lit "prompt", JStr (lit "hi"))])
         (lit "token") = Some (Some (JStr (lit "jwt")))
  /\ truthy (JStr (lit "jwt")) = true
  /\ onMessage env_ok (server boot) 1
       (Value (JObj [(lit "token", JStr (lit "jwt")); (lit "prompt", JStr (lit "hi"))]))
     = ([call_verifyToken 1 (JStr (lit "jwt"))], AwaitVerify 1)
  /\ member (JObj [(lit "token", JNum 0); (lit "prompt", JStr (lit "hi"))])
            (lit "token") = Some (Some (JNum 0))
  /\ truthy (JNum 0) = false
  /\ onMessage env_ok (perform_all (server boot) [tokenVerified_set 1 true]) 1
       (Value (JObj [(lit "token", JNum 0); (lit "prompt", JStr (lit "hi"))]))
     = onMessage env_ok (perform_all (server boot) [tokenVerified_set 1 true]) 1
         (Value (without_token
                   (JObj [(lit "token", JNum 0); (lit "prompt", JStr (lit "hi"))]))).
Proof.
  split; [reflexivity|]. split; [reflexivity|]. split.
  - exact (proj1 (proj1 (truthy_token_frame_is_credential env_ok (server boot) 1
             (JObj [(lit "token", JStr (lit "jwt")); (lit "prompt", JStr (lit "hi"))])
             (JStr (lit "jwt")) eq_refl) eq_refl)).
  - split; [reflexivity|]. split; [reflexivity|].
    exact (proj1 (proj2 (proj2 (proj2 (truthy_token_frame_is_credential env_ok
             (perform_all (server boot) [tokenVerified_set 1 true]) 1
             (JObj [(lit "token", JNum 0); (lit "prompt", JStr (lit "hi"))])
             (JNum 0) eq_refl) eq_refl)))).
Defined.

(** ** No [tokenVerified] message with success false *)

(** Not a [tokenVerified] message that reports a failure. *)
Lemma turn_reports_no_failure env sys l acts p :
  turn env sys l = Some (acts, p) ->
  Forall (fun a => forall w result, a <> ws_send w (TokenVerified false result)) acts.
Proof.
  destruct l as [w0|w0 d|i r|w0]; cbn [turn].
  - intros [= <- <-]. repeat constructor; discriminate.
  - destruct (onMessage env (server sys) w0 d) as [acts0 t0] eqn:E.
    intros [= <- <-].
    destruct (onMessage_cases _ _ _ _ _ _ E)
      as [(? & -> & _) | [(? & -> & _) | (? & _ & [-> | (? & ->)])]];
      repeat constructor; discriminate.
  - destruct (pool sys !! i) as [t0|]; [|discriminate].
    destruct (resume t0 r) as [[acts0 t']|] eqn:E; [|discriminate].
    intros [= <- <-].
    destruct (resume_cases _ _ _ _ E)
      as [(w & ? & _ & _ & ->) | [(w & _ & _ & ->) | (w & _ & Hrel & _)]];
      [repeat constructor; discriminate | repeat constructor; discriminate |].
    eapply Forall_impl; [exact Hrel|].
    intros a Ha w' result ->. exact Ha.
  - intros [= <- <-]. repeat constructor; discriminate.
Qed.

Lemma reachable_reports_no_failure env sys :
  reachable env sys ->
  Forall (fun a => forall w result, a <> ws_send w (TokenVerified false result)) (trace sys).
Proof.
  induction 1 as [|sys l sys' _ IH Hexec]; [constructor|].
  unfold exec in Hexec. destruct (turn env sys l) as [[acts p]|] eqn:E; [|discriminate].
  injection Hexec as <-. cbn [commit trace]. apply Forall_app. split; [exact IH|].
  eapply turn_reports_no_failure, E.
Qed.

(** C7, amended.  When verification of a credential frame fails, neither
    store changes, so a connection that was not authenticated is still not;
    the one message sent is [error] with the text "Token verification
    failed"; and a later credential frame that verifies authenticates the
    connection.  No turn of the event loop sends a [tokenVerified] message
    with success false, so no reachable state has one in its trace. *)
Theorem failed_verification_leaves_session (env : Env) (ws : conn) :
  (forall sys data token,
      member data (lit "token") = Some (Some token) ->
      truthy token = true ->
      exists sys',
        run env sys [Message ws (Value data); Resume (length (pool sys)) Rejected]
        = Some sys'
        /\ server sys' = server sys
        /\ trace sys' =
           trace sys ++ [call_verifyToken ws token;
                         ws_send ws (Error (lit "Token verification failed"))]
        /\ forall data2 token2 result,
             member data2 (lit "token") = Some (Some token2) ->
             truthy token2 = true ->
             exists sys'',
               run env sys' [Message ws (Value data2);
                             Resume (length (pool sys')) (Resolved result)] = Some sys''
               /\ tokenVerified (server sys'') !! ws = Some true
               /\ sent_to ws (trace sys'') =
                  sent_to ws (trace sys') ++ [TokenVerified true result])
  /\ (forall sys l acts p w result,
        turn env sys l = Some (acts, p) ->
        ws_send w (TokenVerified false result) ∉ acts)
  /\ (forall sys,
        reachable env sys ->
        forall i w result,
          trace sys !! i <> Some (ws_send w (TokenVerified false result))).
Proof.
  split; [|split].
  - intros sys data token Hm Ht. eexists.
    split; [now apply (run_credential env sys ws data token)|].
    split; [reflexivity|]. split; [reflexivity|].
    intros data2 token2 result Hm2 Ht2. eexists.
    split; [now apply (run_credential env _ ws data2 token2)|]. split.
    + cbn. apply lookup_insert_eq.
    + cbn [trace commit]. rewrite (sent_to_app ws (trace sys ++ _)). f_equal.
      cbn. now rewrite bool_decide_eq_true_2.
  - intros sys l acts p w result Hturn Hin.
    pose proof (turn_reports_no_failure env sys l acts p Hturn) as Hall.
    rewrite Forall_forall in Hall. exact (Hall _ Hin w result eq_refl).
  - intros sys Hr i w result Hi.
    pose proof (reachable_reports_no_failure env sys Hr) as Hall.
    rewrite Forall_forall in Hall.
    exact (Hall _ (list_elem_of_lookup_2 _ _ _ Hi) w result eq_refl).
Qed.

Lemma failed_verification_leaves_session_witness :
  member (JObj [(lit "token", JStr (lit "bad"))]) (lit "token")
  = Some (Some (JStr (lit "bad")))
  /\ truthy (JStr (lit "bad")) = true
  /\ exists sys',
       run env_ok boot [Message 1 (credential_frame (lit "bad")); Resume 0 Rejected]
       = Some sys'
       /\ server sys' = server boot
       /\ reachable env_ok sys'
       /\ forall i w result,
            trace sys' !! i <> Some (ws_send w (TokenVerified false result)).
Proof.
  split; [reflexivity|]. split; [reflexivity|].
  destruct (proj1 (failed_verification_leaves_session env_ok 1) boot
              (JObj [(lit "token", JStr (lit "bad"))]) (JStr (lit "bad"))
              eq_refl eq_refl) as (sys' & Hrun & Hserver & _).
  assert (Hr : reachable env_ok sys').
  { eapply (run_reachable env_ok _ boot); [constructor | exact Hrun]. }
  exists sys'. split; [exact Hrun|]. split; [exact Hserver|]. split; [exact Hr|].
  exact (proj2 (proj2 (failed_verification_leaves_session env_ok 1)) sys' Hr).
Defined.

(** ** The stored handle, turn by turn *)

Lemma stream_blocks_sends ws blocks acts t :
  stream_blocks ws blocks = (acts, t) -> exists units, acts = relay_sends ws units.
Proof.
  revert acts t. induction blocks as [|b rest IH]; intros acts t; cbn [stream_blocks].
  - intros [= <- <-]. now exists [].
  - destruct (bool_decide _); [|apply IH].
    destruct (js_chars _) as [|char chars]; [apply IH|].
    intros [= <- <-]. now exists [char].
Qed.

Lemma on_sdk_message_store s ws m acts t :
  on_sdk_message ws m = (acts, t) ->
  sessionIds (perform_all s acts) =
  match init_id m with
  | Some id => <[ws := id]> (sessionIds s)
  | None => sessionIds s
  end.
Proof.
  unfold on_sdk_message. rewrite capture_session_init_id. intros E.
  assert (Hstored : forall units,
             sessionIds (perform_all s
                           (match init_id m with
                            | Some id => [sessionIds_set ws id]
                            | None => []
                            end ++ relay_sends ws units)) =
             match init_id m with
             | Some id => <[ws := id]> (sessionIds s)
             | None => sessionIds s
             end).
  { intros units. rewrite perform_all_app, perform_all_relay_sends.
    destruct (init_id m); reflexivity. }
  destruct (bool_decide (msg_type m = lit "assistant")).
  - destruct (msg_content m) as [content|].
    + destruct (stream_blocks ws content) as [sent t0] eqn:E0.
      destruct (stream_blocks_sends _ _ _ _ E0) as [units ->].
      injection E as <- <-. apply Hstored.
    + injection E as <- <-. rewrite <- (app_nil_r (match init_id m with _ => _ end)).
      apply (Hstored []).
  - injection E as <- <-. rewrite <- (app_nil_r (match init_id m with _ => _ end)).
    apply (Hstored []).
Qed.

Lemma after_pace_store s ws chars blocks acts t :
  after_pace ws chars blocks = (acts, t) -> perform_all s acts = s.
Proof.
  destruct chars as [|char chars]; cbn [after_pace].
  - intros E. destruct (stream_blocks_sends _ _ _ _ E) as [units ->].
    apply perform_all_relay_sends.
  - now intros [= <- <-].
Qed.

Lemma exec_handle env sys l sys' ws :
  exec env sys l = Some sys' ->
  sessionIds (server sys') !! ws = handle_step sys l ws (sessionIds (server sys) !! ws).
Proof.
  unfold exec. destruct (turn env sys l) as [[acts p]|] eqn:E; [|discriminate].
  intros [= <-]. cbn [commit server].
  destruct l as [w|w d|i r|w]; cbn [turn handle_step] in *.
  - injection E as <- <-. cbn. case_bool_decide as Hw.
    + subst w. apply lookup_insert_eq.
    + now apply lookup_insert_ne.
  - destruct (onMessage env (server sys) w d) as [acts0 t0] eqn:Em.
    injection E as <- <-.
    destruct (onMessage_cases _ _ _ _ _ _ Em)
      as [(? & -> & _) | [(? & -> & _) | (? & _ & [-> | (? & ->)])]]; reflexivity.
  - destruct (pool sys !! i) as [t0|] eqn:Hi; [|discriminate].
    destruct (resume t0 r) as [[acts0 t']|] eqn:Er; [|discriminate].
    injection E as <- <-.
    destruct t0 as [w|w|w chars blocks|c], r; try discriminate; cbn [resume] in Er;
      apply (inj Some) in Er; try (injection Er as <- <-; reflexivity).
    + rewrite (on_sdk_message_store _ _ _ _ _ Er).
      cbn [label_conn]. rewrite Hi. cbn [mbind option_bind task_conn].
      case_bool_decide as Hw.
      * injection Hw as ->. destruct (init_id m); [apply lookup_insert_eq | reflexivity].
      * destruct (init_id m); [|reflexivity].
        apply lookup_insert_ne. congruence.
    + now rewrite (after_pace_store _ _ _ _ _ _ Er).
  - injection E as <- <-. cbn. case_bool_decide as Hw.
    + subst w. apply lookup_delete_eq.
    + now apply lookup_delete_ne.
Qed.

Lemma run_handle env ws ls :
  forall sys sys',
    run env sys ls = Some sys' ->
    sessionIds (server sys') !! ws
    = handle_after env sys ls ws (sessionIds (server sys) !! ws).
Proof.
  induction ls as [|l ls IH]; intros sys sys'; cbn [run handle_after].
  - now intros [= <-].
  - destruct (exec env sys l) as [sys1|] eqn:E; [|discriminate].
    intros Hrun. rewrite (IH _ _ Hrun). f_equal. exact (exec_handle env sys l sys1 ws E).
Qed.

(** C3, amended.  The stored identifier of a connection changes in three
    ways only: [onOpen] stores the empty string, [onClose] removes the
    entry, and an init message with an identifier, consumed by any
    invocation of the connection, stores that identifier at once.  No other
    turn of the event loop touches it: not the end of a stream, not a
    raise, not a timer, not a frame, not a verification.  So over every run
    the stored identifier is the one of the last init message seen on the
    connection, whether the turn that brought it completes, fails or is
    still being served.  When a turn is served with nothing interleaved and
    its agent stream raises, the client is sent the text relayed so far and
    then [error], never [done]; the stored identifier is the one captured
    from the messages that came before the failure and, when there was
    none, the identifier stored before the turn; the connection stays
    verified and serves the next prompt. *)
Theorem stored_handle_is_last_captured (env : Env) (ws : conn) :
  (forall sys l sys',
      exec env sys l = Some sys' ->
      sessionIds (server sys') !! ws
      = handle_step sys l ws (sessionIds (server sys) !! ws))
  /\ (forall ls sys sys',
        run env sys ls = Some sys' ->
        sessionIds (server sys') !! ws
        = handle_after env sys ls ws (sessionIds (server sys) !! ws))
  /\ (forall sys i r sys',
        exec env sys (Resume i r) = Some sys' ->
        (forall m, r <> Yield m) ->
        sessionIds (server sys') = sessionIds (server sys))
  /\ (forall sys prompt ms,
        tokenVerified (server sys) !! ws = Some true ->
        acceptable prompt ->
        configured env ->
        exists sys',
          serial_turn env sys ws prompt ms Raises = Some sys'
          /\ sent_to ws (trace sys') =
             sent_to ws (trace sys) ++ (Text <$> stream_units ms)
               ++ [Error (lit "Failed to process query")]
          /\ sessionIds (server sys') !! ws =
             match captured ms with
             | Some id => Some id
             | None => sessionIds (server sys) !! ws
             end
          /\ (captured ms = None -> sessionIds (server sys') = sessionIds (server sys))
          /\ tokenVerified (server sys') = tokenVerified (server sys)
          /\ in_flight ws (pool sys') = in_flight ws (pool sys)
          /\ forall prompt2 ms2 e2,
               acceptable prompt2 ->
               exists sys'',
                 serial_turn env sys' ws prompt2 ms2 e2 = Some sys''
                 /\ queries_on ws (trace sys'') =
                    queries_on ws (trace sys')
                      ++ [(prompt2, resume_option (sessionIds (server sys') !! ws))])
  /\ (forall m id,
        init_id m = Some id ->
        exists acts t,
          resume (AwaitNext ws) (Yield m) = Some (sessionIds_set ws id :: acts, t)
          /\ streaming_on ws t = true).
Proof.
  split; [intros sys l sys'; apply exec_handle|].
  split; [intros ls sys sys'; apply run_handle|].
  split; [|split].
  - intros sys i r sys'. unfold exec. cbn [turn].
    destruct (pool sys !! i) as [t0|]; [|discriminate].
    destruct (resume t0 r) as [[acts t']|] eqn:Er; [|discriminate].
    intros [= <-] Hr. cbn [commit server].
    destruct t0 as [w|w|w chars blocks|c], r; try discriminate; cbn [resume] in Er;
      apply (inj Some) in Er; try (injection Er as <- <-; reflexivity).
    + now destruct (Hr m).
    + now rewrite (after_pace_store _ _ _ _ _ _ Er).
  - intros sys prompt ms Hv Hp Hcfg.
    destruct (serial_turn_result env sys ws prompt ms Raises Hv Hp Hcfg)
      as (sys' & Hrun & Htr & Hpool & Hflag & Hids).
    exists sys'. split; [exact Hrun|]. split; [|split; [|split; [|split; [|split]]]].
    + rewrite Htr, sent_to_app, sent_to_turn. reflexivity.
    + rewrite Hids. destruct (captured ms); [apply lookup_insert_eq | reflexivity].
    + intros Hnone. now rewrite Hids, Hnone.
    + exact Hflag.
    + rewrite Hpool, in_flight_snoc. cbn. lia.
    + intros prompt2 ms2 e2 Hp2.
      assert (Hv' : tokenVerified (server sys') !! ws = Some true) by now rewrite Hflag.
      destruct (serial_turn_result env sys' ws prompt2 ms2 e2 Hv' Hp2 Hcfg)
        as (sys'' & Hrun2 & Htr2 & _).
      exists sys''. split; [exact Hrun2|].
      now rewrite Htr2, queries_on_app, queries_on_turn.
  - intros m id Hid. cbn [resume].
    destruct (on_sdk_message ws m) as [acts t] eqn:E.
    destruct (on_sdk_message_pending ws m acts t E) as [Hs _].
    unfold on_sdk_message in E. rewrite capture_session_init_id, Hid in E.
    destruct (bool_decide (msg_type m = lit "assistant")).
    + destruct (msg_content m) as [content|].
      * destruct (stream_blocks ws content) as [sent t0].
        injection E as <- <-. now exists sent, t0.
      * injection E as <- <-. now exists [], (AwaitNext ws).
    + injection E as <- <-. now exists [], (AwaitNext ws).
Qed.

Lemma stored_handle_is_last_captured_witness :
  exists sys sys' sys'',
    run env_ok boot hi_labels = Some sys
    /\ tokenVerified (server sys) !! 1 = Some true
    /\ acceptable (lit "q")
    /\ configured env_ok
    /\ serial_turn env_ok sys 1 (lit "q") [assistant_message [lit "no"]] Raises
       = Some sys'
    /\ sessionIds (server sys) !! 1 = Some (lit "s1")
    /\ sessionIds (server sys') !! 1 = Some (lit "s1")
    /\ exec env_ok sys (Resume 1 Exhausted) = None
    /\ run env_ok boot (two_prompts
                        ++ [Resume 2 (Yield (init_message (lit "s2")));
                            Resume 1 (Yield (init_message (lit "s1")));
                            Resume 2 Raised]) = Some sys''
    /\ sessionIds (server sys'') !! 1 = Some (lit "s1").
Proof.
  assert (Hacc : acceptable (lit "q"))
    by (split; [discriminate | vm_compute; discriminate]).
  eexists.
  match goal with
  | |- exists sys' sys'', run _ _ _ = Some ?s /\ _ =>
      assert (Hrun : run env_ok boot hi_labels = Some s) by reflexivity;
      destruct (proj1 (proj2 (proj2 (proj2 (stored_handle_is_last_captured env_ok 1))))
                  s (lit "q") [assistant_message [lit "no"]] eq_refl Hacc eq_refl)
        as (sys' & Hturn & _ & Hids & _)
  end.
  exists sys'. eexists. split; [exact Hrun|]. split; [reflexivity|]. split; [exact Hacc|].
  split; [reflexivity|]. split; [exact Hturn|]. split; [reflexivity|].
  split; [exact Hids|]. split; [reflexivity|]. split; [reflexivity|].
  match goal with
  | |- sessionIds (server ?s2) !! 1 = _ =>
      rewrite (proj1 (proj2 (stored_handle_is_last_captured env_ok 1))
                 (two_prompts
                  ++ [Resume 2 (Yield (init_message (lit "s2")));
                      Resume 1 (Yield (init_message (lit "s1")));
                      Resume 2 Raised]) boot s2 eq_refl)
  end.
  reflexivity.
Defined.

(** * Revised statements about chunks, the verification endpoint and isolation *)

(** ** Surrogate pairs *)

Lemma js_chars_head (v : N) (r : jsstr) :
  exists c cs, js_chars (v :: r) = (v :: c) :: cs.
Proof.
  cbn [js_chars]. destruct (is_high_surrogate v); [|eauto].
  destruct r as [|v' r']; [eauto|]. destruct (is_low_surrogate v'); eauto.
Qed.

Lemma js_chars_pairs_kept_bounded (n : nat) :
  forall s : jsstr, length s <= n -> pairs_kept (js_chars s).
Proof.
  induction n as [|n IH]; intros [|u rest] Hlen; cbn [length] in Hlen;
    try (intros i h l r Hi; now destruct i); try lia.
  cbn [js_chars]. destruct (is_high_surrogate u) eqn:Hu.
  - destruct rest as [|v rest'].
    + intros [|i] h l r Hi Hh Hnext; [discriminate Hnext | now destruct i].
    + destruct (is_low_surrogate v) eqn:Hv.
      * intros [|i] h l r Hi Hh Hnext; [discriminate Hi|].
        apply (IH rest' ltac:(cbn [length] in Hlen; lia) i h l r Hi Hh Hnext).
      * intros [|i] h l r Hi Hh Hnext.
        -- destruct (js_chars_head v rest') as (c & cs & Hc).
           cbn [lookup list_lookup] in Hnext. rewrite Hc in Hnext.
           cbn in Hnext. injection Hnext as <- _. exact Hv.
        -- apply (IH (v :: rest') ltac:(lia) i h l r Hi Hh Hnext).
  - intros [|i] h l r Hi Hh Hnext.
    + injection Hi as <-. congruence.
    + apply (IH rest ltac:(lia) i h l r Hi Hh Hnext).
Qed.

Lemma js_chars_pair (h l : N) (rest : jsstr) :
  is_high_surrogate h = true -> is_low_surrogate l = true ->
  js_chars (h :: l :: rest) = [h; l] :: js_chars rest.
Proof. intros Hh Hl. cbn [js_chars]. now rewrite Hh, Hl. Qed.

Lemma blocks_units_texts content :
  blocks_units content =
  concat (js_chars <$> (block_text
                          <$> List.filter
                                (fun b => bool_decide (block_type b = lit "text"))
                                content)).
Proof.
  induction content as [|b content IH]; [reflexivity|].
  rewrite blocks_units_cons, IH. unfold block_units. cbn [List.filter].
  destruct (bool_decide (block_type b = lit "text")); reflexivity.
Qed.

Lemma stream_units_text_blocks ms :
  stream_units ms = concat (js_chars <$> text_blocks ms).
Proof.
  unfold stream_units, text_blocks. induction ms as [|m ms IH]; [reflexivity|].
  cbn [fmap list_fmap concat]. rewrite fmap_app, concat_app, <- IH. f_equal.
  unfold display_units, message_blocks.
  destruct (bool_decide (msg_type m = lit "assistant")); [|reflexivity].
  destruct (msg_content m); [apply blocks_units_texts | reflexivity].
Qed.

(** X1.  The relay cuts every text block of the agent's messages into
    code points, block by block.  Every [text] message carries one code
    unit, or a high surrogate together with the low surrogate that follows
    it, so no chunk is empty; within a block no surrogate pair is split: a
    high surrogate followed by a low one always travels with it in one
    chunk, and a chunk that is a lone high surrogate is never followed by
    a chunk that begins with a low one.  There are at most as many [text]
    messages as the text has code units, and exactly as many when the text
    has no high surrogate. *)
Theorem text_messages_are_code_points (ws : conn) (ms : list SDKMessage) (e : Ending) :
  (exists acts,
      feed (AwaitNext ws) (script ms e) = Some (acts, Settled Returned)
      /\ sent_to ws acts = (Text <$> stream_units ms) ++ [final e])
  /\ stream_units ms = concat (js_chars <$> text_blocks ms)
  /\ (forall text, pairs_kept (js_chars text))
  /\ (forall h l rest,
        is_high_surrogate h = true -> is_low_surrogate l = true ->
        js_chars (h :: l :: rest) = [h; l] :: js_chars rest)
  /\ Forall code_point (stream_units ms)
  /\ length (stream_units ms) <= length (collect_text ms)
  /\ (Forall (fun u => is_high_surrogate u = false) (collect_text ms) ->
      stream_units ms = (fun u => [u]) <$> collect_text ms).
Proof.
  split; [|split; [|split; [|split; [|split; [|split]]]]].
  - eexists. split; [apply feed_script|].
    rewrite sent_to_app, sent_to_transcript. cbn. now rewrite bool_decide_eq_true_2.
  - apply stream_units_text_blocks.
  - intros text. apply (js_chars_pairs_kept_bounded (length text)). lia.
  - apply js_chars_pair.
  - apply stream_units_code_points.
  - rewrite collect_text_concat, <- stream_units_concat.
    apply code_points_count, stream_units_code_points.
  - rewrite collect_text_concat.
    unfold stream_units. induction ms as [|m ms IH]; [reflexivity|].
    cbn [fmap list_fmap concat]. intros [Hm Hms]%Forall_app.
    rewrite fmap_app, <- (IH Hms). f_equal. clear IH Hms.
    unfold display_units, message_text in *.
    destruct (bool_decide (msg_type m = lit "assistant")); [|reflexivity].
    destruct (msg_content m) as [content|]; [|reflexivity].
    unfold blocks_units. induction content as [|b content IH]; [reflexivity|].
    cbn [fmap list_fmap concat] in *. apply Forall_app in Hm as [Hb Hc].
    rewrite fmap_app, <- (IH Hc). f_equal.
    unfold block_units, block_text_of in *.
    destruct (bool_decide (block_type b = lit "text")); [|reflexivity].
    now apply js_chars_plain.
Qed.

Lemma text_messages_are_code_points_witness :
  is_high_surrogate 55357 = true
  /\ is_low_surrogate 56832 = true
  /\ stream_units [assistant_message [[55357; 56832; 97; 55357]%N]]
     = [[55357; 56832]; [97]; [55357]]%N
  /\ js_chars [55357; 56832; 97; 55357]%N
     = [55357; 56832]%N :: js_chars [97; 55357]%N.
Proof.
  split; [reflexivity|]. split; [reflexivity|]. split; [reflexivity|].
  exact (proj1 (proj2 (proj2 (proj2
           (text_messages_are_code_points 1
              [assistant_message [[55357; 56832; 97; 55357]%N]] Completes))))
           55357%N 56832%N [97; 55357]%N eq_refl eq_refl).
Defined.

(** ** [GET /auth/verify] on headers as they arrive *)

(** X7.  The verification endpoint hands a token to [verifyToken] exactly
    when the [authorization] header starts with "Bearer "; the token is the
    rest of the header, the same token that [replace] extracts in
    [checkApiAuth].  A header arrives without white space at its ends, so
    the token handed over is never empty, and a header that is just
    "Bearer" is answered like a missing one.  Without a header that starts
    with "Bearer " the answer is 401 "No token provided" and the verifier
    is not called; the answer is 200 only when the verifier accepted the
    token. *)
Theorem auth_verify_extracts_bearer_token (authHeader : option jsstr) (v : Verdict) :
  (forall token,
      authHeader = Some (lit "Bearer " ++ token) ->
      trimmed (lit "Bearer " ++ token) ->
      snd (auth_verify authHeader v) = [token]
      /\ replace_first (lit "Bearer ") (lit "Bearer " ++ token) = token)
  /\ (forall header token,
        authHeader = Some header -> trimmed header ->
        snd (auth_verify authHeader v) = [token] ->
        token <> [] /\ header = lit "Bearer " ++ token)
  /\ (authHeader = Some (lit "Bearer") ->
      auth_verify authHeader v = (refusal 401 (lit "No token provided"), []))
  /\ (snd (auth_verify authHeader v) <> [] ->
      exists token, authHeader = Some (lit "Bearer " ++ token)
                    /\ snd (auth_verify authHeader v) = [token])
  /\ (snd (auth_verify authHeader v) = [] ->
      fst (auth_verify authHeader v) = refusal 401 (lit "No token provided"))
  /\ (status (fst (auth_verify authHeader v)) = 200%N ->
      exists result sub,
        v = Valid result /\ member result (lit "sub") = Some sub
        /\ payload (fst (auth_verify authHeader v)) = VerifiedBody sub).
Proof.
  assert (Hcalled : snd (auth_verify authHeader v) <> [] ->
                    exists token, authHeader = Some (lit "Bearer " ++ token)
                                  /\ snd (auth_verify authHeader v) = [token]).
  { unfold auth_verify. destruct authHeader as [header|]; [|now intros []].
    destruct (nonempty header); cbn [negb orb]; [|now intros []].
    destruct (starts_with (lit "Bearer ") header) eqn:Hs; cbn [negb]; [|now intros []].
    intros _. exists (drop 7 header). split.
    - f_equal. exact (starts_with_split (lit "Bearer ") header Hs).
    - destruct v as [result|]; [destruct (member result (lit "sub"))|]; reflexivity. }
  split; [|split; [|split; [|split; [|split]]]].
  - intros token -> _. split; [|apply replace_first_prefix].
    unfold auth_verify. rewrite starts_with_app.
    change (nonempty (lit "Bearer " ++ token)) with true. cbn [negb orb].
    change (drop 7 (lit "Bearer " ++ token)) with token.
    destruct v as [result|]; [destruct (member result (lit "sub"))|]; reflexivity.
  - intros header token -> [_ Hlast] Hcall.
    destruct Hcalled as (token' & [= ->] & Hcall'); [rewrite Hcall; discriminate|].
    rewrite Hcall in Hcall'. injection Hcall' as <-. split; [|reflexivity].
    intros ->. discriminate Hlast.
  - intros ->. reflexivity.
  - exact Hcalled.
  - unfold auth_verify. destruct authHeader as [header|]; [|reflexivity].
    destruct (negb (nonempty header) || negb (starts_with (lit "Bearer ") header));
      [reflexivity|].
    destruct v as [result|]; [destruct (member result (lit "sub"))|]; discriminate.
  - unfold auth_verify. destruct authHeader as [header|]; [|discriminate].
    destruct (negb (nonempty header) || negb (starts_with (lit "Bearer ") header));
      [discriminate|].
    destruct v as [result|]; [|discriminate].
    destruct (member result (lit "sub")) as [sub|] eqn:Hsub; [|discriminate].
    intros _. now exists result, sub.
Qed.

Lemma auth_verify_extracts_bearer_token_witness :
  trimmed (lit "Bearer jwt")
  /\ auth_verify (Some (lit "Bearer jwt")) (Valid subject)
     = ({| status := 200; payload := VerifiedBody (Some (JStr (lit "user_1"))) |},
        [lit "jwt"])
  /\ lit "jwt" <> []
  /\ lit "Bearer jwt" = lit "Bearer " ++ lit "jwt".
Proof.
  assert (Ht : trimmed (lit "Bearer jwt")) by (split; reflexivity).
  split; [exact Ht|]. split; [reflexivity|].
  exact (proj1 (proj2 (auth_verify_extracts_bearer_token
                         (Some (lit "Bearer jwt")) (Valid subject)))
           (lit "Bearer jwt") (lit "jwt") eq_refl Ht eq_refl).
Defined.

(** ** Isolation, while the process runs *)

(** X10.  As long as no invocation has thrown, a turn of the event loop
    that is for one connection (its open, message or close event, or the
    resumption of one of its invocations) leaves every other connection as
    it was: the other connection's stored session identifier and verified
    flag, the messages sent to it, the calls made for it and its
    invocations are unchanged.  (A frame [null] makes the handler throw,
    and the process ends with every connection; such turns are left
    out.) *)
Theorem connections_are_isolated
    (env : Env) (sys sys' : Sys) (l : Label) (w ws : conn) :
  exec env sys l = Some sys' ->
  alive sys' ->
  label_conn sys l = Some w ->
  ws <> w ->
  sessionIds (server sys') !! ws = sessionIds (server sys) !! ws
  /\ tokenVerified (server sys') !! ws = tokenVerified (server sys) !! ws
  /\ sent_to ws (trace sys') = sent_to ws (trace sys)
  /\ queries_on ws (trace sys') = queries_on ws (trace sys)
  /\ verifications_on ws (trace sys') = verifications_on ws (trace sys)
  /\ (forall i t, pool sys !! i = Some t -> task_conn t = Some ws ->
      pool sys' !! i = Some t).
Proof.
  unfold exec. destruct (turn env sys l) as [[acts p]|] eqn:E; [|discriminate].
  intros [= <-] _ Hw Hne. cbn [commit server trace pool].
  destruct (foreign_actions (server sys) ws w acts
              (turn_actions_conn env sys l acts p w E Hw) Hne)
    as (H1 & H2 & H3 & H4 & H5).
  unfold sent_to, queries_on, verifications_on in *. rewrite !omap_app, H1, H2, H3, !app_nil_r.
  repeat split; try assumption.
  intros i t Hi Ht. destruct l as [w0|w0 d|j r|w0]; cbn [turn] in E.
  - now injection E as _ <-.
  - destruct (onMessage env (server sys) w0 d). injection E as _ <-.
    now apply lookup_app_l_Some.
  - destruct (pool sys !! j) as [t0|] eqn:Hj; [|discriminate].
    destruct (resume t0 r) as [[acts0 t']|]; [|discriminate]. injection E as _ <-.
    rewrite list_lookup_insert_ne; [assumption|].
    intros ->. cbn [label_conn mbind option_bind] in Hw. rewrite Hj in Hw.
    cbn in Hw. congruence.
  - now injection E as _ <-.
Qed.

Lemma connections_are_isolated_witness :
  exists sys sys',
    run env_ok boot (Open 2 :: hi_labels) = Some sys
    /\ exec env_ok sys (Message 1 (prompt_frame (lit "again"))) = Some sys'
    /\ alive sys'
    /\ label_conn sys (Message 1 (prompt_frame (lit "again"))) = Some 1
    /\ 2 <> 1
    /\ sent_to 2 (trace sys') = [Ready]
    /\ sent_to 2 (trace sys') = sent_to 2 (trace sys).
Proof.
  eexists. eexists. split; [reflexivity|]. split; [reflexivity|]. split; [reflexivity|].
  split; [reflexivity|]. split; [discriminate|]. split; [reflexivity|].
  match goal with
  | |- sent_to 2 (trace ?s') = sent_to 2 (trace ?s) =>
      exact (proj1 (proj2 (proj2 (connections_are_isolated env_ok s s'
               (Message 1 (prompt_frame (lit "again"))) 1 2 eq_refl eq_refl eq_refl
               ltac:(discriminate)))))
  end.
Defined.
